(** * The handle resolution pipeline of the ActivityPub learning scripts

    A shallow embedding of [01-webfinger-discovery.js] (WebFinger discovery)
    and of the actor profile script (actor fetch, actor display, outbox
    fetch, complete analysis), and of [convertToActivityPubNote], the
    conversion of the public timeline script, followed by the properties of
    the pipeline.

    Conventions of the embedding.
    - JSON documents are values of [JS.value]; a JavaScript string is a
      [string] (its sequence of bytes, so [substring] counts bytes where the
      engine counts UTF-16 units; only printed text depends on it), a number
      is an integer of [Z]: every operation modelled here treats a fractional
      number as it treats a non-zero integer.
    - An [async] function is a computation of the monad [M]: it reads the
      world (the network), sees the events that happened so far, and yields
      an outcome (a value or a thrown error) with the events it added.
      The scripts [await] every call at once, so the order of events is the
      order of the program text.
    - What is printed on the console is kept as a list of text parts: the
      literal pieces of a template literal and its holes [${...}], holding
      the interpolated value.  A hole raises a [TypeError] exactly when the
      engine cannot convert its value to a string. *)

From Stdlib Require Import String Ascii List ZArith Bool Lia.
Import ListNotations.
Local Open Scope string_scope.
Local Open Scope list_scope.
#[local] Set Warnings "-register-all".

(** String concatenation, the [+] and the template literals of the scripts. *)
Infix "+++" := String.append (at level 60, right associativity).

(** ** JavaScript values and the built-in operations the scripts use *)

Module JS.

(** A value that [JSON.parse] can produce, and [undefined].  The members of
    an object are listed in the order of the document; a later member
    with the same key replaces an earlier one. *)
Inductive value : Type :=
| VUndefined
| VNull
| VBool (b : bool)
| VNum (n : Z)
| VStr (s : string)
| VArr (elems : list value)
| VObj (members : list (string * value)).

(** What [throw] carries: an [Error] made by the script, a [TypeError]
    raised by the engine, or the error axios rejects with (it has a
    [response], with status and body, when the server answered). *)
Inductive error : Type :=
| Error (msg : string)
| TypeError (msg : string)
| AxiosError (msg : string) (resp : option (Z * value)).

Definition message (e : error) : string :=
  match e with
  | Error m | TypeError m | AxiosError m _ => m
  end.

Definition response (e : error) : option (Z * value) :=
  match e with
  | AxiosError _ r => r
  | _ => None
  end.

(** Truthiness: what [if (v)], [!v], [a || b] and [a && b] test. *)
Definition truthy (v : value) : bool :=
  match v with
  | VUndefined | VNull => false
  | VBool b => b
  | VNum n => negb (Z.eqb n 0)
  | VStr s => negb (String.eqb s "")
  | VArr _ | VObj _ => true
  end.

(** [v == null]: the values on which [?.] short-circuits and a property
    read throws. *)
Definition nullish (v : value) : bool :=
  match v with
  | VUndefined | VNull => true
  | _ => false
  end.

(** [a || b]. *)
Definition or_else (a b : value) : value := if truthy a then a else b.

(** The own property [k] of an object with these members. *)
Fixpoint own (k : string) (members : list (string * value)) : option value :=
  match members with
  | [] => None
  | (k', v) :: rest =>
      match own k rest with
      | Some later => Some later
      | None => if String.eqb k k' then Some v else None
      end
  end.

Definition has_own (k : string) (members : list (string * value)) : bool :=
  match own k members with Some _ => true | None => false end.

(** [v.k] for a value that is not nullish and a key [k] that names data
    (the keys the scripts read are no method of a prototype): an own
    property of an object, the [length] of a string or an array, otherwise
    [undefined]. *)
Definition member (v : value) (k : string) : value :=
  match v with
  | VObj ms => match own k ms with Some x => x | None => VUndefined end
  | VArr l => if String.eqb k "length" then VNum (Z.of_nat (List.length l)) else VUndefined
  | VStr s => if String.eqb k "length" then VNum (Z.of_nat (String.length s)) else VUndefined
  | _ => VUndefined
  end.

(** [a === "lit"]. *)
Definition strict_eq_str (a : value) (lit : string) : bool :=
  match a with
  | VStr s => String.eqb s lit
  | _ => false
  end.

(** Whether the engine can convert the value to a primitive (to a string
    in a template literal, to a number in [Math.min] or [>]).  An object
    parsed from JSON converts through [Object.prototype.toString] unless
    an own member [toString] hides it (it is never a function, and
    [valueOf] gives back the object); an array joins the conversions of its
    elements, [null] and [undefined] counting as empty. *)
Fixpoint convertible (v : value) : bool :=
  match v with
  | VObj ms => negb (has_own "toString" ms)
  | VArr l =>
      forallb (fun x => match x with
                        | VUndefined | VNull => true
                        | _ => convertible x
                        end) l
  | _ => true
  end.

(** [s.split(sep)] for a separator of one character: never empty. *)
Fixpoint split_on (sep : ascii) (s : string) : list string :=
  match s with
  | EmptyString => [EmptyString]
  | String c rest =>
      if Ascii.eqb c sep then EmptyString :: split_on sep rest
      else match split_on sep rest with
           | piece :: pieces => String c piece :: pieces
           | [] => [String c EmptyString]
           end
  end.

(** The optional string a destructuring pattern binds is falsy when it is
    missing ([undefined]) or empty. *)
Definition truthy_piece (p : option string) : bool :=
  match p with
  | Some s => negb (String.eqb s "")
  | None => false
  end.

Definition piece_text (p : option string) : string :=
  match p with Some s => s | None => "undefined" end.

(** [l.slice(0, limit)] on an array: a negative end counts from the back. *)
Definition slice0 {A : Type} (l : list A) (limit : Z) : list A :=
  let len := Z.of_nat (List.length l) in
  let final := if Z.ltb limit 0 then Z.max (len + limit) 0 else Z.min limit len in
  firstn (Z.to_nat final) l.

Fixpoint has_gt (s : string) : bool :=
  match s with
  | EmptyString => false
  | String c rest => if Ascii.eqb c ">" then true else has_gt rest
  end.

(** [s.replace(/<[^>]*>/g, '')]: every [<], with the text up to the
    next [>], is dropped; a [<] that no [>] follows stays.  [in_tag] is set
    while the text of a tag is skipped. *)
Fixpoint strip_from (in_tag : bool) (s : string) : string :=
  match s with
  | EmptyString => EmptyString
  | String c rest =>
      if in_tag then
        if Ascii.eqb c ">" then strip_from false rest else strip_from true rest
      else if Ascii.eqb c "<" && has_gt rest then strip_from true rest
      else String c (strip_from false rest)
  end.

Definition strip_tags (s : string) : string := strip_from false s.

Fixpoint repeat_string (s : string) (n : nat) : string :=
  match n with
  | O => EmptyString
  | S k => s +++ repeat_string s k
  end.

(** The double quote. *)
Definition dq : string := String (ascii_of_nat 34) EmptyString.

(** The line feed ['\n']. *)
Definition nl : string := String (ascii_of_nat 10) EmptyString.

End JS.

Import JS.

(** ** The console, the network and the monad of the scripts *)

(** The colours of [chalk]; [plain] is a bare [console.log]. *)
Inductive colour : Type :=
| plain | blue | gray | green | yellow | cyan | red | magenta | white.

Inductive stream : Type := stdout | stderr.

(** A piece of a printed line: literal text, a hole [${v}], the text
    [JSON.stringify(v, null, 2)], or a hole [${Math.min(a, b)}]. *)
Inductive part : Type :=
| Lit (s : string)
| Sub (v : value)
| Json (v : value)
| MinOf (a : Z) (b : value).

(** The request [axios.get(url, {headers, timeout})]. *)
Record request : Type := mkRequest {
  url : value;
  headers : list (string * string);
  timeout : Z
}.

Inductive event : Type :=
| EvRequest (r : request)
| EvConsole (s : stream) (c : colour) (line : list part).

(** How a request ends: axios resolves with the parsed body of a 2xx
    answer, and rejects on a network error, a timeout or another status. *)
Inductive reply : Type :=
| Resolved (data : value)
| Rejected (e : error).

(** The world a script runs in: how the network answers a request after
    the events so far, and the comparison [v > 0] for an operand that is a
    string, an array or an object (the engine parses its text as a number;
    that parsing is not interpreted here). *)
Record world : Type := mkWorld {
  net : list event -> request -> reply;
  text_gt_zero : value -> bool
}.

Inductive outcome (A : Type) : Type :=
| Normal (a : A)
| Throw (e : error).
Arguments Normal {A} a.
Arguments Throw {A} e.

(** A computation: from the world and the events so far to an outcome
    and the events added. *)
Definition M (A : Type) : Type := world -> list event -> outcome A * list event.

Definition ret {A} (a : A) : M A := fun _ _ => (Normal a, []).

Definition throw {A} (e : error) : M A := fun _ _ => (Throw e, []).

Definition bind {A B} (m : M A) (k : A -> M B) : M B :=
  fun w past =>
    match m w past with
    | (Normal a, es) =>
        let (r, es') := k a w (past ++ es) in (r, es ++ es')
    | (Throw e, es) => (Throw e, es)
    end.

(** [try { body } catch (error) { handler }]. *)
Definition try_catch {A} (body : M A) (handler : error -> M A) : M A :=
  fun w past =>
    match body w past with
    | (Throw e, es) =>
        let (r, es') := handler e w (past ++ es) in (r, es ++ es')
    | done => done
    end.

Declare Scope js_scope.
Delimit Scope js_scope with js.
Notation "x <- m ;; k" := (bind m (fun x => k))
  (at level 61, m at next level, right associativity) : js_scope.
Notation "m ;; k" := (bind m (fun _ => k))
  (at level 61, right associativity) : js_scope.
Local Open Scope js_scope.

(** The outcome and the events of a run. *)
Definition result {A} (m : M A) (w : world) (past : list event) : outcome A :=
  fst (m w past).
Definition emitted {A} (m : M A) (w : world) (past : list event) : list event :=
  snd (m w past).

(** The requests among some events, in order. *)
Fixpoint requests (es : list event) : list request :=
  match es with
  | [] => []
  | EvRequest r :: rest => r :: requests rest
  | EvConsole _ _ _ :: rest => requests rest
  end.

Definition part_ok (p : part) : bool :=
  match p with
  | Lit _ | Json _ => true
  | Sub v => convertible v
  | MinOf _ b => convertible b
  end.

Definition cannot_convert : error :=
  TypeError "Cannot convert object to primitive value".

(** Printing a line: building its text may throw, printing does not. *)
Definition print (s : stream) (c : colour) (line : list part) : M unit :=
  if forallb part_ok line
  then fun _ _ => (Normal tt, [EvConsole s c line])
  else throw cannot_convert.

Definition console_log := print stdout.
Definition console_error := print stderr.

(** [await axios.get(url, config)], resolving with [response.data]. *)
Definition axios_get (r : request) : M value :=
  fun w past =>
    (match net w past r with
     | Resolved data => Normal data
     | Rejected e => Throw e
     end, [EvRequest r]).

(** [v.k], which throws on [null] and [undefined]. *)
Definition get (v : value) (k : string) : M value :=
  if nullish v
  then throw (TypeError ("Cannot read properties of " +++
                         (match v with VNull => "null" | _ => "undefined" end) +++
                         " (reading '" +++ k +++ "')"))
  else ret (member v k).

Definition not_a_function (what : string) : error :=
  TypeError (what +++ " is not a function").

(** [Array.prototype.find]: the first element the callback accepts. *)
Fixpoint find_first (cb : value -> M bool) (l : list value) : M value :=
  match l with
  | [] => ret VUndefined
  | x :: rest =>
      hit <- cb x ;;
      if (hit : bool) then ret x else find_first cb rest
  end.

(** [v.find(cb)]: only an array has the method. *)
Definition find (what : string) (v : value) (cb : value -> M bool) : M value :=
  match v with
  | VArr l => find_first cb l
  | _ => throw (not_a_function (what +++ ".find"))
  end.

(** [Array.prototype.forEach], the callback taking the element and its
    index. *)
Fixpoint for_each_from (i : nat) (l : list value) (cb : value -> nat -> M unit) : M unit :=
  match l with
  | [] => ret tt
  | x :: rest => cb x i ;; for_each_from (S i) rest cb
  end.

Definition for_each (l : list value) (cb : value -> nat -> M unit) : M unit :=
  for_each_from 0 l cb.

(** [v.replace(/<[^>]*>/g, '')]: only a string has the method. *)
Definition replace_tags (what : string) (v : value) : M string :=
  match v with
  | VStr s => ret (strip_tags s)
  | _ => throw (not_a_function (what +++ ".replace"))
  end.

(** [for (const x of xs) { body }]. *)
Fixpoint for_of {A} (xs : list A) (body : A -> M unit) : M unit :=
  match xs with
  | [] => ret tt
  | x :: rest => body x ;; for_of rest body
  end.

(** [v > 0]. *)
Definition gt_zero (v : value) : M bool :=
  match v with
  | VUndefined | VNull => ret false
  | VBool b => ret b
  | VNum n => ret (Z.ltb 0 n)
  | VStr _ => fun w _ => (Normal (text_gt_zero w v), [])
  | VArr _ | VObj _ =>
      if convertible v then fun w _ => (Normal (text_gt_zero w v), [])
      else throw cannot_convert
  end.

(** ** [01-webfinger-discovery.js] *)

Definition user_agent : string := "ActivityPub-Learning-Setup/1.0".

(** The object [discoverActor] returns. *)
Record discovery : Type := mkDiscovery {
  handle : string;
  webfingerData : value;
  actorUrl : value
}.

Definition invalid_handle_format : error :=
  Error "Invalid handle format. Use: username@domain.com".

Definition webfinger_request (webfingerUrl : string) : request :=
  {| url := VStr webfingerUrl;
     headers := [("Accept", "application/jrd+json"); ("User-Agent", user_agent)];
     timeout := 10000 |}.

(** [response.data.links?.find(link => link.type === 'application/activity+json')?.href] *)
Definition extract_actor_url (data : value) : M value :=
  links <- get data "links" ;;
  if nullish links then ret VUndefined
  else
    link <- find "response.data.links" links
              (fun link => t <- get link "type" ;;
                           ret (strict_eq_str t "application/activity+json")) ;;
    if nullish link then ret VUndefined else get link "href".

(** The [catch] block of [discoverActor]: it reports and throws again. *)
Definition discovery_failed (handle : string) (error : JS.error) : M discovery :=
  console_error red [Lit "❌ WebFinger discovery failed for "; Sub (VStr handle); Lit ":"] ;;
  console_error red [Sub (VStr (message error))] ;;
  match response error with
  | Some (status, data) =>
      console_error red [Lit "Status: "; Sub (VNum status)] ;;
      console_error red [Lit "Response: "; Json data]
  | None => ret tt
  end ;;
  throw error.

Definition discoverActor (handle : string) : M discovery :=
  console_log blue [Lit "🔍 Discovering actor: "; Sub (VStr handle)] ;;
  (* Parse handle *)
  let pieces := split_on "@" handle in
  let username := nth_error pieces 0 in
  let domain := nth_error pieces 1 in
  if negb (truthy_piece username) || negb (truthy_piece domain)
  then throw invalid_handle_format
  else
    (* Construct WebFinger URL *)
    let webfingerUrl :=
      "https://" +++ piece_text domain +++ "/.well-known/webfinger?resource=acct:" +++ handle in
    try_catch
      (console_log gray [Lit "📡 Making request to: "; Sub (VStr webfingerUrl)] ;;
       data <- axios_get (webfinger_request webfingerUrl) ;;
       console_log green [Lit "✅ WebFinger discovery successful!"] ;;
       console_log yellow [Lit "📋 Response data:"] ;;
       console_log plain [Json data] ;;
       (* Extract ActivityPub actor URL *)
       actorUrl <- extract_actor_url data ;;
       (if truthy actorUrl
        then console_log cyan [Lit "🎭 Actor URL found: "; Sub actorUrl]
        else ret tt) ;;
       ret {| handle := handle; webfingerData := data; actorUrl := actorUrl |})
      (discovery_failed handle).

Definition testAccounts : list string :=
  ["Gargron@mastodon.social"; "dansup@pixelfed.social"].

(** One turn of the loop of [runWebFingerTests]. *)
Definition webfinger_test (account : string) : M unit :=
  try_catch
    (console_log blue [Lit (repeat_string "=" 50)] ;;
     _ <- discoverActor account ;;
     console_log plain [Lit nl])
    (fun _ => console_log red [Lit "Skipping "; Sub (VStr account); Lit (" due to error" +++ nl)]).

(** [runWebFingerTests], over the accounts of its array. *)
Definition runWebFingerTests_over (accounts : list string) : M unit :=
  console_log magenta [Lit ("🚀 Starting WebFinger Discovery Tests" +++ nl)] ;;
  for_of accounts webfinger_test ;;
  console_log magenta [Lit "💡 To test your own handle, modify the testAccounts array in this file."] ;;
  console_log gray [Lit ("Example: Add your Mastodon handle like " +++ dq +++ "yourname@mastodon.social" +++ dq)].

Definition runWebFingerTests : M unit := runWebFingerTests_over testAccounts.

(** ** The actor profile script *)

(** The request of [fetchActor] and of both requests of [fetchActorOutbox]. *)
Definition activity_request (target : value) : request :=
  {| url := target;
     headers := [("Accept", "application/activity+json, application/ld+json");
                 ("User-Agent", user_agent)];
     timeout := 10000 |}.

Definition fetchActor (actorUrl : value) : M value :=
  console_log blue [Lit "🎭 Fetching ActivityPub actor: "; Sub actorUrl] ;;
  try_catch
    (data <- axios_get (activity_request actorUrl) ;;
     console_log green [Lit "✅ Successfully fetched actor data"] ;;
     ret data)
    (fun error =>
       console_error red [Lit "❌ Failed to fetch actor from "; Sub actorUrl; Lit ":"] ;;
       console_error red [Sub (VStr (message error))] ;;
       throw error).

(** [if (v) console.log(chalk.white(`label${v}`))]. *)
Definition show_when_set (label : string) (v : value) : M unit :=
  if truthy v then console_log white [Lit label; Sub v] else ret tt.

(** [v.substring(0, n)]. *)
Definition substring_to (what : string) (n : nat) (v : value) : M string :=
  match v with
  | VStr s => ret (substring 0 n s)
  | VUndefined => throw (TypeError "Cannot read properties of undefined (reading 'substring')")
  | VNull => throw (TypeError "Cannot read properties of null (reading 'substring')")
  | _ => throw (not_a_function (what +++ ".substring"))
  end.

(** The callback of [actor.attachment.forEach]. *)
Definition show_field (field : value) (index : nat) : M unit :=
  name <- get field "name" ;;
  value <- get field "value" ;;
  shown <- (if truthy value
            then text <- replace_tags "field.value" value ;; ret (VStr text)
            else ret (VStr "No value")) ;;
  console_log gray
    ([Lit "  "] ++
     (if truthy name then [Sub name] else [Lit "Field "; Sub (VNum (Z.of_nat index + 1))]) ++
     [Lit ": "; Sub shown]).

Definition analyzeActor (actor : value) : M unit :=
  console_log yellow [Lit (nl +++ "🔍 ActivityPub Actor Analysis:")] ;;
  type <- get actor "type" ;;
  console_log cyan [Lit "Type: "; Sub type] ;;
  id <- get actor "id" ;;
  console_log cyan [Lit "ID: "; Sub id] ;;
  name <- get actor "name" ;;
  console_log cyan [Lit "Name: "; Sub (or_else name (VStr "Not specified"))] ;;
  preferredUsername <- get actor "preferredUsername" ;;
  console_log cyan [Lit "Preferred Username: "; Sub preferredUsername] ;;
  summary <- get actor "summary" ;;
  bio <- (if truthy summary
          then text <- replace_tags "actor.summary" summary ;;
               ret (substring 0 100 text +++ "...")
          else ret "No bio") ;;
  console_log cyan [Lit "Summary: "; Sub (VStr bio)] ;;
  (* URLs and endpoints *)
  console_log blue [Lit (nl +++ "🔗 URLs and Endpoints:")] ;;
  profile <- get actor "url" ;;
  console_log white [Lit "Profile URL: "; Sub profile] ;;
  inbox <- get actor "inbox" ;;
  show_when_set "Inbox: " inbox ;;
  outbox <- get actor "outbox" ;;
  show_when_set "Outbox: " outbox ;;
  followers <- get actor "followers" ;;
  show_when_set "Followers Collection: " followers ;;
  following <- get actor "following" ;;
  show_when_set "Following Collection: " following ;;
  (* Public key information (for verification) *)
  publicKey <- get actor "publicKey" ;;
  (if truthy publicKey then
     console_log green [Lit (nl +++ "🔐 Public Key Information:")] ;;
     key_id <- get publicKey "id" ;;
     console_log white [Lit "Key ID: "; Sub key_id] ;;
     owner <- get publicKey "owner" ;;
     console_log white [Lit "Owner: "; Sub owner] ;;
     publicKeyPem <- get publicKey "publicKeyPem" ;;
     pem <- substring_to "actor.publicKey.publicKeyPem" 50 publicKeyPem ;;
     console_log gray [Lit "Key: "; Sub (VStr pem); Lit "..."]
   else ret tt) ;;
  (* Icon and images *)
  icon <- get actor "icon" ;;
  (if truthy icon then
     console_log magenta [Lit (nl +++ "🖼️ Avatar:")] ;;
     icon_type <- get icon "type" ;;
     console_log white [Lit "Type: "; Sub icon_type] ;;
     icon_url <- get icon "url" ;;
     console_log white [Lit "URL: "; Sub icon_url]
   else ret tt) ;;
  image <- get actor "image" ;;
  (if truthy image then
     console_log magenta [Lit "🎨 Header Image:"] ;;
     image_type <- get image "type" ;;
     console_log white [Lit "Type: "; Sub image_type] ;;
     image_url <- get image "url" ;;
     console_log white [Lit "URL: "; Sub image_url]
   else ret tt) ;;
  (* Additional properties *)
  console_log yellow [Lit (nl +++ "📋 Additional Properties:")] ;;
  discoverable <- get actor "discoverable" ;;
  (match discoverable with
   | VUndefined => ret tt
   | _ => console_log white [Lit "Discoverable: "; Sub discoverable]
   end) ;;
  manuallyApprovesFollowers <- get actor "manuallyApprovesFollowers" ;;
  (match manuallyApprovesFollowers with
   | VUndefined => ret tt
   | _ => console_log white [Lit "Manually Approves Followers: "; Sub manuallyApprovesFollowers]
   end) ;;
  attachment <- get actor "attachment" ;;
  some <- (if truthy attachment
           then len <- get attachment "length" ;; gt_zero len
           else ret false) ;;
  if (some : bool) then
    console_log white [Lit "Profile Fields:"] ;;
    match attachment with
    | VArr fields => for_each fields show_field
    | _ => throw (not_a_function "actor.attachment.forEach")
    end
  else ret tt.

(** The callback of [activities.slice(0, limit).forEach]. *)
Definition show_activity (activity : value) (index : nat) : M unit :=
  type <- get activity "type" ;;
  console_log cyan [Lit nl; Sub (VNum (Z.of_nat index + 1)); Lit ". Activity Type: "; Sub type] ;;
  published <- get activity "published" ;;
  console_log white [Lit "   Published: "; Sub published] ;;
  object <- get activity "object" ;;
  object_type <- (if truthy object then get object "type" else ret object) ;;
  if truthy object_type then
    console_log white [Lit "   Object Type: "; Sub object_type] ;;
    content <- get object "content" ;;
    if truthy content then
      text <- replace_tags "activity.object.content" content ;;
      console_log gray [Lit "   Content: "; Sub (VStr (substring 0 80 text)); Lit "..."]
    else ret tt
  else ret tt.

(** [activities.slice(0, limit).forEach(...)]: an array has both methods,
    a string has [slice] only, nothing else has [slice]. *)
Definition show_activities (activities : value) (limit : Z) : M unit :=
  match activities with
  | VArr items => for_each (slice0 items limit) show_activity
  | VStr _ => throw (not_a_function "activities.slice(...).forEach")
  | _ => throw (not_a_function "activities.slice")
  end.

(** The body of the inner [try] of [fetchActorOutbox]: the first page. *)
Definition show_first_page (first : value) (limit : Z) : M unit :=
  page <- axios_get (activity_request first) ;;
  orderedItems <- get page "orderedItems" ;;
  activities <- (if truthy orderedItems then ret orderedItems
                 else items <- get page "items" ;;
                      ret (or_else items (VArr []))) ;;
  console_log yellow [Lit (nl +++ "🎯 Recent Activities (showing ");
                      MinOf limit (member activities "length"); Lit "):"] ;;
  show_activities activities limit.

(** The body of the outer [try] of [fetchActorOutbox]: the collection. *)
Definition show_outbox (outboxUrl : value) (limit : Z) : M value :=
  outbox <- axios_get (activity_request outboxUrl) ;;
  totalItems <- get outbox "totalItems" ;;
  console_log green [Lit "✅ Outbox fetched - Total items: ";
                     Sub (or_else totalItems (VStr "unknown"))] ;;
  first <- get outbox "first" ;;
  if truthy first then
    console_log blue [Lit "📄 First page: "; Sub first] ;;
    (* Fetch first page of activities *)
    try_catch
      (show_first_page first limit)
      (fun _ => console_log red [Lit "❌ Could not fetch outbox activities"]) ;;
    ret VUndefined
  else ret VUndefined.

(** The default parameter [limit = 5]: [None] is an argument left out. *)
Definition limit_of (limit_arg : option Z) : Z :=
  match limit_arg with Some n => n | None => 5%Z end.

Definition fetchActorOutbox (outboxUrl : value) (limit_arg : option Z) : M value :=
  let limit := limit_of limit_arg in
  if negb (truthy outboxUrl) then
    console_log yellow [Lit "⚠️ No outbox URL available"] ;;
    ret VUndefined
  else
    console_log blue [Lit "📤 Fetching actor's outbox: "; Sub outboxUrl] ;;
    try_catch
      (show_outbox outboxUrl limit)
      (fun error =>
         console_error red [Lit "❌ Failed to fetch outbox: "; Sub (VStr (message error))] ;;
         ret VUndefined).

Definition analyzeActorComplete (handle : string) : M value :=
  try_catch
    (console_log magenta [Lit "🚀 Complete Actor Analysis for: "; Sub (VStr handle)] ;;
     console_log blue [Lit (repeat_string "=" 60)] ;;
     (* Step 1: WebFinger discovery *)
     discovery <- discoverActor handle ;;
     if negb (truthy (actorUrl discovery)) then
       console_log red [Lit "❌ No ActivityPub actor URL found in WebFinger response"] ;;
       ret VUndefined
     else
       (* Step 2: Fetch actor object *)
       actor <- fetchActor (actorUrl discovery) ;;
       (* Step 3: Analyze actor *)
       analyzeActor actor ;;
       (* Step 4: Fetch recent activities *)
       outbox <- get actor "outbox" ;;
       _ <- fetchActorOutbox outbox (Some 3%Z) ;;
       ret VUndefined)
    (fun error =>
       console_error red [Lit "❌ Actor analysis failed: "; Sub (VStr (message error))] ;;
       ret VUndefined).

(** One turn of the loop of [runActorTests]. *)
Definition actor_test (account : string) : M unit :=
  _ <- analyzeActorComplete account ;;
  console_log plain [Lit (nl +++ repeat_string "=" 80 +++ nl)].

(** [runActorTests], over the accounts of its array. *)
Definition runActorTests_over (accounts : list string) : M unit :=
  console_log magenta [Lit ("🚀 Starting ActivityPub Actor Analysis" +++ nl)] ;;
  for_of accounts actor_test.

Definition runActorTests : M unit := runActorTests_over ["Gargron@mastodon.social"].

(** ** Words of the specification, and worlds to run the scripts in *)

(** Whether an [@] occurs in the text. *)
Fixpoint has_at (s : string) : bool :=
  match s with
  | EmptyString => false
  | String c rest => if Ascii.eqb c "@" then true else has_at rest
  end.

(** The handles [discoverActor] turns away: no [@] at all, nothing before
    the first [@], or nothing between the first [@] and the next one (or the
    end of the handle). *)
Inductive malformed : string -> Prop :=
| missing_at (h : string) :
    has_at h = false -> malformed h
| empty_username (rest : string) :
    malformed ("@" +++ rest)
| empty_domain_at_end (user : string) :
    has_at user = false -> malformed (user +++ "@")
| empty_domain_before_at (user rest : string) :
    has_at user = false -> malformed (user +++ "@@" +++ rest).

(** The two pieces the destructuring of [discoverActor] binds, and its
    test on them. *)
Definition username_of (handle : string) : option string :=
  nth_error (split_on "@" handle) 0.
Definition domain_of (handle : string) : option string :=
  nth_error (split_on "@" handle) 1.
Definition turned_away (handle : string) : bool :=
  negb (truthy_piece (username_of handle)) || negb (truthy_piece (domain_of handle)).

(** The link type the script looks for. *)
Definition is_activity_link (link : value) : bool :=
  strict_eq_str (member link "type") "application/activity+json".

Definition is_ld_json_link (link : value) : bool :=
  strict_eq_str (member link "type") "application/ld+json".

(** The actor URL of a document with these links: the [href] of the first
    link of the type looked for, if there is one. *)
Definition actor_url_of (links : list value) : value :=
  match List.find is_activity_link links with
  | Some link => member link "href"
  | None => VUndefined
  end.

(** A WebFinger document with these links: an object whose [links], when
    present, is an array; no link is [null], and the [href] of a link can be
    printed. *)
Definition readable_link (link : value) : bool :=
  negb (nullish link) && convertible (member link "href").

Definition jrd_with_links (doc : value) (links : list value) : Prop :=
  match doc with
  | VObj ms =>
      match own "links" ms with
      | Some l => l = VArr links
      | None => links = []
      end
  | _ => False
  end /\ forallb readable_link links = true.

Module Spec.

(** The handle format of the specification: exactly one [@], with text on
    both sides. *)
Fixpoint count_at (s : string) : nat :=
  match s with
  | EmptyString => 0
  | String c rest => (if Ascii.eqb c "@" then 1 else 0) + count_at rest
  end.

Fixpoint ends_with_at (s : string) : bool :=
  match s with
  | EmptyString => false
  | String c EmptyString => Ascii.eqb c "@"
  | String _ rest => ends_with_at rest
  end.

Definition starts_with_at (s : string) : bool :=
  match s with
  | String c _ => Ascii.eqb c "@"
  | EmptyString => false
  end.

Definition handle_ok (h : string) : bool :=
  Nat.eqb (count_at h) 1 && negb (starts_with_at h) && negb (ends_with_at h).

(** Percent-encoding as the specification asks for it: letters, digits
    and [-], [_], [.], [~] stand for themselves, any other byte is written
    [%XX]. *)
Definition unreserved (c : ascii) : bool :=
  let n := nat_of_ascii c in
  (Nat.leb 65 n && Nat.leb n 90) || (Nat.leb 97 n && Nat.leb n 122) ||
  (Nat.leb 48 n && Nat.leb n 57) ||
  Ascii.eqb c "-" || Ascii.eqb c "_" || Ascii.eqb c "." || Ascii.eqb c "~".

Definition hex_digit (n : nat) : ascii :=
  if Nat.ltb n 10 then ascii_of_nat (48 + n) else ascii_of_nat (55 + n).

Fixpoint percent_encode (s : string) : string :=
  match s with
  | EmptyString => EmptyString
  | String c rest =>
      if unreserved c then String c (percent_encode rest)
      else
        let n := nat_of_ascii c in
        String "%" (String (hex_digit (n / 16)) (String (hex_digit (n mod 16))
                                                   (percent_encode rest)))
  end.

(** The WebFinger URL of the specification for [user@domain]. *)
Definition webfinger_url (user domain : string) : string :=
  "https://" +++ domain +++ "/.well-known/webfinger?resource=acct:" +++
  percent_encode user +++ "@" +++ percent_encode domain.

(** What every request must carry: the timeout of ten seconds, the client
    identification, and no header besides [Accept] and [User-Agent] (so no
    [Authorization], no [Signature]). *)
Definition fixed_parameters (r : request) : Prop :=
  timeout r = 10000%Z /\
  In ("User-Agent", user_agent) (headers r) /\
  map fst (headers r) = ["Accept"; "User-Agent"].

End Spec.

(** An event that is no request, or a request with the fixed parameters. *)
Definition within_fixed_parameters (ev : event) : Prop :=
  match ev with
  | EvRequest r => Spec.fixed_parameters r
  | EvConsole _ _ _ => True
  end.

(** An event of the console. *)
Definition on_console (ev : event) : Prop :=
  match ev with
  | EvRequest _ => False
  | EvConsole _ _ _ => True
  end.

(** The WebFinger URL the script builds for a domain and a handle. *)
Definition webfinger_url (domain handle : string) : string :=
  "https://" +++ domain +++ "/.well-known/webfinger?resource=acct:" +++ handle.

Definition url_text (u : value) : string :=
  match u with VStr s => s | _ => "" end.

(** The first lines [discoverActor] prints. *)
Definition discovering (handle : string) : event :=
  EvConsole stdout blue [Lit "🔍 Discovering actor: "; Sub (VStr handle)].
Definition making_request (u : string) : event :=
  EvConsole stdout gray [Lit "📡 Making request to: "; Sub (VStr u)].

(** The lines [fetchActorOutbox] prints. *)
Definition fetching_outbox (outboxUrl : value) : event :=
  EvConsole stdout blue [Lit "📤 Fetching actor's outbox: "; Sub outboxUrl].
Definition outbox_fetched (outbox : value) : event :=
  EvConsole stdout green [Lit "✅ Outbox fetched - Total items: ";
                          Sub (or_else (member outbox "totalItems") (VStr "unknown"))].
Definition first_page_line (first : value) : event :=
  EvConsole stdout blue [Lit "📄 First page: "; Sub first].
Definition showing (limit : Z) (activities : value) : event :=
  EvConsole stdout yellow [Lit (nl +++ "🎯 Recent Activities (showing ");
                           MinOf limit (member activities "length"); Lit "):"].
Definition could_not_fetch : event :=
  EvConsole stdout red [Lit "❌ Could not fetch outbox activities"].
Definition failed_to_fetch (e : error) : event :=
  EvConsole stderr red [Lit "❌ Failed to fetch outbox: "; Sub (VStr (message e))].

(** [page.orderedItems || page.items || []]. *)
Definition page_activities (page : value) : value :=
  or_else (member page "orderedItems") (or_else (member page "items") (VArr [])).

(** The outbox is asked for and served: its URL is set and can be printed,
    the request is answered with a collection whose [totalItems] can be
    printed and whose [first] is set and can be printed. *)
Definition outbox_served (w : world) (past : list event) (outboxUrl outbox : value) : Prop :=
  truthy outboxUrl = true /\ convertible outboxUrl = true /\
  net w (past ++ [fetching_outbox outboxUrl]) (activity_request outboxUrl) = Resolved outbox /\
  nullish outbox = false /\
  convertible (or_else (member outbox "totalItems") (VStr "unknown")) = true /\
  truthy (member outbox "first") = true /\
  convertible (member outbox "first") = true.

(** What [fetchActorOutbox] emits up to the request of the first page. *)
Definition before_first_page (outboxUrl outbox : value) : list event :=
  [fetching_outbox outboxUrl; EvRequest (activity_request outboxUrl);
   outbox_fetched outbox; first_page_line (member outbox "first")].

(** The WebFinger request of an accepted handle, and the events before it. *)
Definition request_of (handle : string) : request :=
  webfinger_request (webfinger_url (piece_text (domain_of handle)) handle).
Definition before_request (handle : string) : list event :=
  [discovering handle; making_request (webfinger_url (piece_text (domain_of handle)) handle)].

(** The lines of [analyzeActorComplete] and of the test loops. *)
Definition analysis_start (handle : string) : list event :=
  [EvConsole stdout magenta [Lit "🚀 Complete Actor Analysis for: "; Sub (VStr handle)];
   EvConsole stdout blue [Lit (repeat_string "=" 60)]].
Definition analysis_failed (e : error) : event :=
  EvConsole stderr red [Lit "❌ Actor analysis failed: "; Sub (VStr (message e))].
Definition test_separator : event :=
  EvConsole stdout blue [Lit (repeat_string "=" 50)].
Definition skipping (account : string) : event :=
  EvConsole stdout red [Lit "Skipping "; Sub (VStr account); Lit (" due to error" +++ nl)].

(** A network with these documents, by URL; any other request is rejected
    with status 404. *)
Fixpoint lookup_url (u : string) (site : list (string * value)) : reply :=
  match site with
  | [] => Rejected (AxiosError "Request failed with status code 404" (Some (404%Z, VStr "")))
  | (u', doc) :: rest => if String.eqb u u' then Resolved doc else lookup_url u rest
  end.

Definition serving (site : list (string * value)) : world :=
  {| net := fun _ r => lookup_url (url_text (url r)) site;
     text_gt_zero := fun _ => false |}.

(** No network at all. *)
Definition offline : world := serving [].

(** The links of a WebFinger document: a profile page, then two links of
    the type looked for. *)
Definition alice_links : list value :=
  [VObj [("rel", VStr "http://webfinger.net/rel/profile-page");
         ("type", VStr "text/html");
         ("href", VStr "https://example.org/@alice")];
   VObj [("rel", VStr "self");
         ("type", VStr "application/activity+json");
         ("href", VStr "https://example.org/users/alice")];
   VObj [("rel", VStr "alternate");
         ("type", VStr "application/activity+json");
         ("href", VStr "https://mirror.example.org/users/alice")]].

Definition alice_jrd : value :=
  VObj [("subject", VStr "acct:alice@example.org"); ("links", VArr alice_links)].

Definition alice_ld_jrd : value :=
  VObj [("subject", VStr "acct:alice@example.org");
        ("links", VArr [VObj [("rel", VStr "self");
                              ("type", VStr "application/ld+json");
                              ("href", VStr "https://example.org/users/alice")]])].

(** An activity, told from the others by the time of its publication. *)
Definition note (n : Z) : value :=
  VObj [("type", VStr "Create"); ("published", VNum n);
        ("object", VObj [("type", VStr "Note")])].

Definition ten_notes : list value :=
  map note [1; 2; 3; 4; 5; 6; 7; 8; 9; 10]%Z.

Definition alice_site : list (string * value) :=
  [("https://example.org/.well-known/webfinger?resource=acct:alice@example.org", alice_jrd);
   ("https://example.org/users/alice",
    VObj [("id", VStr "https://example.org/users/alice"); ("type", VStr "Person");
          ("preferredUsername", VStr "alice");
          ("outbox", VStr "https://example.org/users/alice/outbox")]);
   ("https://example.org/users/alice/outbox",
    VObj [("type", VStr "OrderedCollection"); ("totalItems", VNum 10);
          ("first", VStr "https://example.org/users/alice/outbox?page=true")]);
   ("https://example.org/users/alice/outbox?page=true",
    VObj [("type", VStr "OrderedCollectionPage"); ("orderedItems", VArr ten_notes)])].

(** ** The public timeline script: [convertToActivityPubNote] *)

Definition public_address : value :=
  VStr "https://www.w3.org/ns/activitystreams#Public".

(** [Array.prototype.map]: the results of the callback, in order. *)
Fixpoint map_each (cb : value -> M value) (l : list value) : M (list value) :=
  match l with
  | [] => ret []
  | x :: rest =>
      y <- cb x ;;
      ys <- map_each cb rest ;;
      ret (y :: ys)
  end.

(** [v.map(cb)]: only an array has the method. *)
Definition map_array (what : string) (v : value) (cb : value -> M value) : M value :=
  match v with
  | VArr l => ys <- map_each cb l ;; ret (VArr ys)
  | VUndefined => throw (TypeError "Cannot read properties of undefined (reading 'map')")
  | VNull => throw (TypeError "Cannot read properties of null (reading 'map')")
  | _ => throw (not_a_function (what +++ ".map"))
  end.

(** The callback of [post.media_attachments.map]. *)
Definition document_of (media : value) : M value :=
  type <- get media "type" ;;
  media_url <- get media "url" ;;
  ret (VObj [("type", VStr "Document");
             ("mediaType", VStr (if strict_eq_str type "image" then "image/*" else "unknown"));
             ("url", media_url)]).

(** [{type: 'Collection', totalItems: n}]. *)
Definition collection (totalItems : value) : value :=
  VObj [("type", VStr "Collection"); ("totalItems", totalItems)].

Definition convertToActivityPubNote (post : value) : M value :=
  uri <- get post "uri" ;;
  created_at <- get post "created_at" ;;
  account <- get post "account" ;;
  attributedTo <- get account "url" ;;
  content <- get post "content" ;;
  visibility <- get post "visibility" ;;
  post_url <- get post "url" ;;
  replies_count <- get post "replies_count" ;;
  favourites_count <- get post "favourites_count" ;;
  reblogs_count <- get post "reblogs_count" ;;
  media_attachments <- get post "media_attachments" ;;
  attachment <- map_array "post.media_attachments" media_attachments document_of ;;
  ret (VObj [("@context", VStr "https://www.w3.org/ns/activitystreams");
             ("type", VStr "Note");
             ("id", uri);
             ("published", created_at);
             ("attributedTo", attributedTo);
             ("content", content);
             ("to", VArr (if strict_eq_str visibility "public" then [public_address] else []));
             ("cc", VArr (if strict_eq_str visibility "unlisted" then [public_address] else []));
             ("url", post_url);
             ("replies", collection replies_count);
             ("likes", collection favourites_count);
             ("shares", collection reblogs_count);
             ("attachment", attachment)]).

(** ** More words for the properties *)

(** The parts of [discoverActor] after its test, by name: what follows the
    printing of the received document, the body of the [try], the [try]. *)
Definition discovery_result (handle : string) (data : value) : M discovery :=
  actorUrl <- extract_actor_url data ;;
  (if truthy actorUrl
   then console_log cyan [Lit "🎭 Actor URL found: "; Sub actorUrl]
   else ret tt) ;;
  ret {| handle := handle; webfingerData := data; actorUrl := actorUrl |}.

Definition discovery_steps (handle : string) : M discovery :=
  console_log gray [Lit "📡 Making request to: ";
                    Sub (VStr (webfinger_url (piece_text (domain_of handle)) handle))] ;;
  data <- axios_get (request_of handle) ;;
  console_log green [Lit "✅ WebFinger discovery successful!"] ;;
  console_log yellow [Lit "📋 Response data:"] ;;
  console_log plain [Json data] ;;
  discovery_result handle data.

Definition discovery_attempt (handle : string) : M discovery :=
  try_catch (discovery_steps handle) (discovery_failed handle).

(** What the [catch] of [discoverActor] prints for an error. *)
Definition discovery_failed_lines (handle : string) (e : error) : list event :=
  [EvConsole stderr red [Lit "❌ WebFinger discovery failed for "; Sub (VStr handle); Lit ":"];
   EvConsole stderr red [Sub (VStr (message e))]] ++
  match response e with
  | Some (status, data) =>
      [EvConsole stderr red [Lit "Status: "; Sub (VNum status)];
       EvConsole stderr red [Lit "Response: "; Json data]]
  | None => []
  end.

(** What [discoverActor] prints between a resolved request and the
    extraction of the actor URL. *)
Definition discovery_succeeded_lines (data : value) : list event :=
  [EvConsole stdout green [Lit "✅ WebFinger discovery successful!"];
   EvConsole stdout yellow [Lit "📋 Response data:"];
   EvConsole stdout plain [Json data]].


(** The lines of [fetchActor]. *)
Definition fetching_actor (actorUrl : value) : event :=
  EvConsole stdout blue [Lit "🎭 Fetching ActivityPub actor: "; Sub actorUrl].
Definition actor_fetched : event :=
  EvConsole stdout green [Lit "✅ Successfully fetched actor data"].
Definition actor_fetch_failed_lines (actorUrl : value) (e : error) : list event :=
  [EvConsole stderr red [Lit "❌ Failed to fetch actor from "; Sub actorUrl; Lit ":"];
   EvConsole stderr red [Sub (VStr (message e))]].

Definition no_actor_url : event :=
  EvConsole stdout red [Lit "❌ No ActivityPub actor URL found in WebFinger response"].

(** A request of the actor script: [activity_request] of some URL. *)
Definition is_activity_request (r : request) : Prop :=
  exists target, r = activity_request target.

Definition console_or_activity_request (ev : event) : Prop :=
  match ev with
  | EvRequest r => is_activity_request r
  | EvConsole _ _ _ => True
  end.

(** The computation issues at most [n] requests. *)
Definition at_most {A} (n : nat) (m : M A) : Prop :=
  forall w past, List.length (requests (emitted m w past)) <= n.

(** The keys [analyzeActor] reads besides [type] and [id]. *)
Definition optional_actor_keys : list string :=
  ["name"; "preferredUsername"; "summary"; "url"; "inbox"; "outbox"; "followers";
   "following"; "publicKey"; "icon"; "image"; "discoverable";
   "manuallyApprovesFollowers"; "attachment"].

(** What [analyzeActor] prints for an actor with nothing but a type and an
    id. *)
Definition bare_actor_lines (type id : value) : list event :=
  [EvConsole stdout yellow [Lit (nl +++ "🔍 ActivityPub Actor Analysis:")];
   EvConsole stdout cyan [Lit "Type: "; Sub type];
   EvConsole stdout cyan [Lit "ID: "; Sub id];
   EvConsole stdout cyan [Lit "Name: "; Sub (VStr "Not specified")];
   EvConsole stdout cyan [Lit "Preferred Username: "; Sub VUndefined];
   EvConsole stdout cyan [Lit "Summary: "; Sub (VStr "No bio")];
   EvConsole stdout blue [Lit (nl +++ "🔗 URLs and Endpoints:")];
   EvConsole stdout white [Lit "Profile URL: "; Sub VUndefined];
   EvConsole stdout yellow [Lit (nl +++ "📋 Additional Properties:")]].

(** A collection with inline items and no first page. *)
Definition inline_outbox : value :=
  VObj [("type", VStr "OrderedCollection"); ("totalItems", VNum 10);
        ("orderedItems", VArr ten_notes)].

(** A status of the Mastodon API, as [convertToActivityPubNote] reads it. *)
Definition a_status (visibility : string) (media : list value) : value :=
  VObj [("uri", VStr "https://example.org/users/alice/statuses/1");
        ("url", VStr "https://example.org/@alice/1");
        ("created_at", VStr "2024-01-15T10:30:00Z");
        ("account", VObj [("url", VStr "https://example.org/@alice")]);
        ("content", VStr "<p>hello</p>");
        ("visibility", VStr visibility);
        ("replies_count", VNum 1); ("favourites_count", VNum 2); ("reblogs_count", VNum 3);
        ("media_attachments", VArr media)].

(** What the callback of [post.media_attachments.map] makes of one
    attachment: it reads [media.type] and [media.url], which [null] and
    [undefined] do not have. *)
Definition documents (media doc : value) : Prop :=
  nullish media = false /\
  doc = VObj [("type", VStr "Document");
              ("mediaType", VStr (if strict_eq_str (member media "type") "image"
                                  then "image/*" else "unknown"));
              ("url", member media "url")].

(** No event satisfies [silent]: a computation that emits only such events
    emits none. *)
Definition silent (ev : event) : Prop := False.

(** The WebFinger URL of alice, and the answer of a server that is down. *)
Definition alice_webfinger_url : string :=
  "https://example.org/.well-known/webfinger?resource=acct:alice@example.org".
Definition not_found : error :=
  AxiosError "Request failed with status code 404" (Some (404%Z, VStr "")).

(** ** What is said of a computation *)

(** Every event the computation adds satisfies [P]. *)
Definition emits {A} (P : event -> Prop) (m : M A) : Prop :=
  forall w past, Forall P (emitted m w past).

(** Whenever the computation returns, what it returns satisfies [Q]. *)
Definition yields {A} (Q : A -> Prop) (m : M A) : Prop :=
  forall w past a, result m w past = Normal a -> Q a.

(** The computation returns, whatever the world does. *)
Definition settles {A} (m : M A) : Prop :=
  forall w past, exists a, result m w past = Normal a.

(** ** Running computations *)

Section Runs.
Context {A B : Type}.
Implicit Types (w : world) (past : list event).

Lemma run_eta (m : M A) w past : m w past = (result m w past, emitted m w past).
Proof. unfold result, emitted. now destruct (m w past). Qed.

Lemma result_bind (m : M A) (k : A -> M B) w past :
  result (bind m k) w past =
  match result m w past with
  | Normal a => result (k a) w (past ++ emitted m w past)
  | Throw e => Throw e
  end.
Proof.
  unfold result, emitted, bind.
  destruct (m w past) as [[a | e] es]; simpl; [| reflexivity].
  now destruct (k a w (past ++ es)).
Qed.

Lemma emitted_bind (m : M A) (k : A -> M B) w past :
  emitted (bind m k) w past =
  emitted m w past ++
  match result m w past with
  | Normal a => emitted (k a) w (past ++ emitted m w past)
  | Throw _ => []
  end.
Proof.
  unfold result, emitted, bind.
  destruct (m w past) as [[a | e] es]; simpl; [| now rewrite app_nil_r].
  now destruct (k a w (past ++ es)).
Qed.

Lemma result_try (m : M A) (h : error -> M A) w past :
  result (try_catch m h) w past =
  match result m w past with
  | Normal a => Normal a
  | Throw e => result (h e) w (past ++ emitted m w past)
  end.
Proof.
  unfold result, emitted, try_catch.
  destruct (m w past) as [[a | e] es]; simpl; [reflexivity |].
  now destruct (h e w (past ++ es)).
Qed.

Lemma emitted_try (m : M A) (h : error -> M A) w past :
  emitted (try_catch m h) w past =
  emitted m w past ++
  match result m w past with
  | Normal _ => []
  | Throw e => emitted (h e) w (past ++ emitted m w past)
  end.
Proof.
  unfold result, emitted, try_catch.
  destruct (m w past) as [[a | e] es]; simpl; [now rewrite app_nil_r |].
  now destruct (h e w (past ++ es)).
Qed.

End Runs.

Lemma requests_app (es es' : list event) :
  requests (es ++ es') = requests es ++ requests es'.
Proof.
  induction es as [| [r | s c l] es IH]; simpl; [reflexivity | now rewrite IH | exact IH].
Qed.

(** A line whose holes hold strings and numbers is printed. *)
Lemma print_line s c line w past :
  forallb part_ok line = true ->
  print s c line w past = (Normal tt, [EvConsole s c line]).
Proof. intros H. unfold print. now rewrite H. Qed.

(** Printing adds the line, or nothing when the line cannot be built. *)
Lemma print_cases s c line w past :
  print s c line w past = (Normal tt, [EvConsole s c line]) \/
  print s c line w past = (Throw cannot_convert, []).
Proof. unfold print. destruct (forallb part_ok line); [left | right]; reflexivity. Qed.

Lemma result_print s c line w past :
  forallb part_ok line = true -> result (print s c line) w past = Normal tt.
Proof. intros H. unfold result. now rewrite print_line. Qed.

Lemma emitted_print s c line w past :
  forallb part_ok line = true -> emitted (print s c line) w past = [EvConsole s c line].
Proof. intros H. unfold emitted. now rewrite print_line. Qed.

Lemma emitted_axios_get r w past : emitted (axios_get r) w past = [EvRequest r].
Proof. reflexivity. Qed.

Lemma result_axios_get r w past :
  result (axios_get r) w past =
  match net w past r with Resolved data => Normal data | Rejected e => Throw e end.
Proof. reflexivity. Qed.

Lemma requests_on_console es : Forall on_console es -> requests es = [].
Proof.
  induction 1 as [| [r | s c l] es Hx _ IH]; simpl; auto. contradiction.
Qed.

(** ** What a computation may emit *)

Section Emits.
Variable P : event -> Prop.
Hypothesis P_console : forall s c line, P (EvConsole s c line).

Lemma emits_ret {A} (a : A) : emits P (ret a).
Proof. intros w past. constructor. Qed.

Lemma emits_throw {A} (e : error) : emits P (@throw A e).
Proof. intros w past. constructor. Qed.

Lemma emits_bind {A B} (m : M A) (k : A -> M B) :
  emits P m -> (forall a, emits P (k a)) -> emits P (bind m k).
Proof.
  intros Hm Hk w past. rewrite emitted_bind. apply Forall_app. split; [apply Hm |].
  destruct (result m w past); [apply Hk | constructor].
Qed.

Lemma emits_try {A} (m : M A) (h : error -> M A) :
  emits P m -> (forall e, emits P (h e)) -> emits P (try_catch m h).
Proof.
  intros Hm Hh w past. rewrite emitted_try. apply Forall_app. split; [apply Hm |].
  destruct (result m w past); [constructor | apply Hh].
Qed.

Lemma emits_print s c line : emits P (print s c line).
Proof.
  intros w past. unfold emitted.
  destruct (print_cases s c line w past) as [-> | ->]; simpl; auto.
Qed.

Lemma emits_axios_get r : P (EvRequest r) -> emits P (axios_get r).
Proof. intros Hr w past. unfold emitted, axios_get. simpl. auto. Qed.

Lemma emits_get v k : emits P (get v k).
Proof. unfold get. destruct (nullish v); [apply emits_throw | apply emits_ret]. Qed.

Lemma emits_gt_zero v : emits P (gt_zero v).
Proof.
  destruct v; simpl; try apply emits_ret; try (intros w past; constructor).
  all: match goal with |- context [if ?b then _ else _] => destruct b end.
  all: solve [apply emits_throw | intros w past; constructor].
Qed.

Lemma emits_find_first cb l :
  (forall x, emits P (cb x)) -> emits P (find_first cb l).
Proof.
  intros Hcb. induction l as [| x l IH]; simpl; [apply emits_ret |].
  apply emits_bind; [apply Hcb |]. intros [|]; [apply emits_ret | exact IH].
Qed.

Lemma emits_find what v cb : (forall x, emits P (cb x)) -> emits P (find what v cb).
Proof.
  intros Hcb. destruct v; simpl; try apply emits_throw. now apply emits_find_first.
Qed.

Lemma emits_for_each l cb :
  (forall x i, emits P (cb x i)) -> emits P (for_each l cb).
Proof.
  intros Hcb. unfold for_each. generalize 0.
  induction l as [| x l IH]; intros i; simpl; [apply emits_ret |].
  apply emits_bind; [apply Hcb | intros _; apply IH].
Qed.

Lemma emits_for_of {A} (xs : list A) body :
  (forall x, emits P (body x)) -> emits P (for_of xs body).
Proof.
  intros Hb. induction xs as [| x xs IH]; simpl; [apply emits_ret |].
  apply emits_bind; [apply Hb | intros _; exact IH].
Qed.

Lemma emits_replace_tags what v : emits P (replace_tags what v).
Proof. destruct v; simpl; try apply emits_throw. apply emits_ret. Qed.

Lemma emits_substring_to what n v : emits P (substring_to what n v).
Proof. destruct v; simpl; try apply emits_throw. apply emits_ret. Qed.

End Emits.

Create HintDb emits.
#[local] Hint Resolve emits_ret emits_throw emits_print emits_get emits_gt_zero
  emits_replace_tags emits_substring_to : emits.

(** One step of a proof that a script emits only events of [P]: through a
    sequence, a [try], a loop, or the branches of a test. *)
Ltac emits_step :=
  match goal with
  | |- forall _, _ => intro
  | |- emits _ (bind _ _) => apply emits_bind
  | |- emits _ (try_catch _ _) => apply emits_try
  | |- emits _ (find _ _ _) => apply emits_find
  | |- emits _ (for_each _ _) => apply emits_for_each
  | |- emits _ (for_of _ _) => apply emits_for_of
  | |- emits _ (console_log _ _) => apply emits_print
  | |- emits _ (console_error _ _) => apply emits_print
  | |- emits _ (if ?b then _ else _) => destruct b
  | |- emits _ (match ?x with _ => _ end) => destruct x
  | |- emits _ _ => solve [auto with emits]
  end.

(** ** The parameters of every request *)

Lemma webfinger_request_fixed u : Spec.fixed_parameters (webfinger_request u).
Proof. repeat split. simpl. auto. Qed.

Lemma activity_request_fixed u : Spec.fixed_parameters (activity_request u).
Proof. repeat split. simpl. auto. Qed.

Section FixedParameters.
#[local] Abbreviation P := within_fixed_parameters.

Lemma console_within_fixed s c line : P (EvConsole s c line).
Proof. exact I. Qed.
Hint Resolve console_within_fixed : core.

Ltac fixed_parameters :=
  repeat emits_step;
  first [ apply emits_axios_get; first [apply webfinger_request_fixed | apply activity_request_fixed]
        | solve [auto using emits_get, emits_ret, emits_throw, emits_print, emits_gt_zero,
                            emits_replace_tags, emits_substring_to] ].

Lemma discoverActor_fixed handle : emits P (discoverActor handle).
Proof. unfold discoverActor, extract_actor_url, discovery_failed. fixed_parameters. Qed.

Lemma fetchActor_fixed actorUrl : emits P (fetchActor actorUrl).
Proof. unfold fetchActor. fixed_parameters. Qed.

Lemma analyzeActor_fixed actor : emits P (analyzeActor actor).
Proof. unfold analyzeActor, show_when_set, show_field. fixed_parameters. Qed.

Lemma fetchActorOutbox_fixed outboxUrl limit : emits P (fetchActorOutbox outboxUrl limit).
Proof.
  unfold fetchActorOutbox, show_outbox, show_first_page, show_activities, show_activity.
  fixed_parameters.
Qed.

Lemma analyzeActorComplete_fixed handle : emits P (analyzeActorComplete handle).
Proof.
  unfold analyzeActorComplete.
  repeat emits_step;
    auto using discoverActor_fixed, fetchActor_fixed, analyzeActor_fixed,
               fetchActorOutbox_fixed, emits_get, emits_ret, emits_print.
Qed.

Lemma webfinger_test_fixed account : emits P (webfinger_test account).
Proof.
  unfold webfinger_test.
  repeat emits_step; auto using discoverActor_fixed, emits_print.
Qed.

Lemma actor_test_fixed account : emits P (actor_test account).
Proof.
  unfold actor_test.
  repeat emits_step; auto using analyzeActorComplete_fixed, emits_print.
Qed.

Lemma runWebFingerTests_over_fixed accounts : emits P (runWebFingerTests_over accounts).
Proof.
  unfold runWebFingerTests_over.
  repeat emits_step; auto using webfinger_test_fixed, emits_print.
Qed.

Lemma runActorTests_over_fixed accounts : emits P (runActorTests_over accounts).
Proof.
  unfold runActorTests_over.
  repeat emits_step; auto using actor_test_fixed, emits_print.
Qed.

End FixedParameters.

Lemma requests_within es :
  Forall within_fixed_parameters es -> Forall Spec.fixed_parameters (requests es).
Proof.
  induction 1 as [| [r | s c l] es Hx _ IH]; simpl; auto.
Qed.

(** C9. Every request a script of the pipeline issues (WebFinger discovery,
    actor fetch, outbox fetch and first-page fetch, alone, chained by
    [analyzeActorComplete] or in the loops of the test runners) has the
    timeout of 10000 ms, the header [User-Agent:
    ActivityPub-Learning-Setup/1.0], and no header besides [Accept] and
    [User-Agent]: no authentication, no signature. *)
Theorem every_request_has_the_fixed_parameters (w : world) (past : list event) :
  (forall handle,
      Forall Spec.fixed_parameters (requests (emitted (discoverActor handle) w past))) /\
  (forall actorUrl,
      Forall Spec.fixed_parameters (requests (emitted (fetchActor actorUrl) w past))) /\
  (forall outboxUrl limit,
      Forall Spec.fixed_parameters
             (requests (emitted (fetchActorOutbox outboxUrl limit) w past))) /\
  (forall handle,
      Forall Spec.fixed_parameters (requests (emitted (analyzeActorComplete handle) w past))) /\
  (forall accounts,
      Forall Spec.fixed_parameters (requests (emitted (runWebFingerTests_over accounts) w past))) /\
  (forall accounts,
      Forall Spec.fixed_parameters (requests (emitted (runActorTests_over accounts) w past))).
Proof.
  repeat split; intros; apply requests_within.
  - apply discoverActor_fixed.
  - apply fetchActor_fixed.
  - apply fetchActorOutbox_fixed.
  - apply analyzeActorComplete_fixed.
  - apply runWebFingerTests_over_fixed.
  - apply runActorTests_over_fixed.
Qed.

(** ** Splitting a handle *)

Lemma split_on_without_at s : has_at s = false -> split_on "@" s = [s].
Proof.
  induction s as [| c s IH]; simpl; [reflexivity |].
  destruct (Ascii.eqb c "@"); [discriminate |].
  intros H. now rewrite (IH H).
Qed.

Lemma split_on_first_at_cons user rest :
  has_at user = false ->
  split_on "@" (user +++ String "@" rest) = user :: split_on "@" rest.
Proof.
  induction user as [| c user IH]; simpl; [reflexivity |].
  destruct (Ascii.eqb c "@"); [discriminate |].
  intros H. now rewrite (IH H).
Qed.

Lemma split_on_first_at user rest :
  has_at user = false ->
  split_on "@" (user +++ "@" +++ rest) = user :: split_on "@" rest.
Proof. exact (split_on_first_at_cons user rest). Qed.

(** Every text is cut at its first [@], if it has one. *)
Lemma first_at s :
  has_at s = false \/
  exists user rest, has_at user = false /\ s = user +++ "@" +++ rest.
Proof.
  induction s as [| c s IH]; simpl; [now left |].
  destruct (Ascii.eqb c "@") eqn:Hc.
  - right. exists "", s. apply Ascii.eqb_eq in Hc. subst c. now split.
  - destruct IH as [H | (user & rest & Hu & ->)]; [now left |].
    right. exists (String c user), rest. simpl. now rewrite Hc.
Qed.

Lemma turned_away_malformed handle : turned_away handle = true <-> malformed handle.
Proof.
  unfold turned_away, username_of, domain_of. split.
  - intros H.
    destruct (first_at handle) as [Hn | (user & rest & Hu & ->)]; [now constructor |].
    rewrite split_on_first_at in H by assumption. simpl in H.
    destruct user as [| c user]; [apply empty_username |].
    simpl in H.
    destruct rest as [| d rest]; [now apply empty_domain_at_end |].
    simpl in H. destruct (Ascii.eqb d "@") eqn:Hd.
    + apply Ascii.eqb_eq in Hd. subst d.
      now apply (empty_domain_before_at (String c user) rest).
    + destruct (split_on "@" rest); discriminate.
  - intros [h Hn | rest | user Hu | user rest Hu].
    + rewrite split_on_without_at by assumption. simpl. apply orb_true_r.
    + reflexivity.
    + rewrite (split_on_first_at_cons user "") by assumption. simpl. apply orb_true_r.
    + change (user +++ "@@" +++ rest) with (user +++ String "@" (String "@" rest)).
      rewrite split_on_first_at_cons by assumption. simpl. apply orb_true_r.
Qed.

(** ** Discovery: validation, the request, the actor URL *)

Section Quiet.
#[local] Abbreviation P := on_console.

Lemma console_on_console s c line : P (EvConsole s c line).
Proof. exact I. Qed.
Hint Resolve console_on_console : core.

Lemma extract_actor_url_quiet data : emits P (extract_actor_url data).
Proof. unfold extract_actor_url. repeat emits_step; auto using emits_get, emits_ret. Qed.

Lemma discovery_failed_quiet handle e : emits P (discovery_failed handle e).
Proof.
  unfold discovery_failed.
  repeat emits_step; auto using emits_print, emits_ret, emits_throw.
Qed.

Lemma analyzeActor_quiet actor : emits P (analyzeActor actor).
Proof.
  unfold analyzeActor, show_when_set, show_field.
  repeat emits_step;
    auto using emits_get, emits_ret, emits_throw, emits_print, emits_gt_zero,
               emits_replace_tags, emits_substring_to.
Qed.
End Quiet.

Lemma quiet_requests {A} (m : M A) w past :
  emits on_console m -> requests (emitted m w past) = [].
Proof. intros H. apply requests_on_console, H. Qed.

(** A [try] whose body prints a line, issues a request and goes on without
    another request, as its handler does, issues that one request. *)
Lemma requests_of_one_request {A} s c line r (k : value -> M A) (h : error -> M A) w past :
  forallb part_ok line = true ->
  (forall v, emits on_console (k v)) ->
  (forall e, emits on_console (h e)) ->
  requests (emitted (try_catch (print s c line ;; x <- axios_get r ;; k x) h) w past) = [r].
Proof.
  intros Hline Hk Hh.
  rewrite emitted_try, emitted_bind, emitted_print, result_print by assumption.
  rewrite emitted_bind, emitted_axios_get, !requests_app. simpl.
  f_equal.
  replace (requests _) with (@nil request).
  2:{ destruct (result (axios_get r) w _); [symmetry; apply quiet_requests, Hk | reflexivity]. }
  match goal with
  | |- context [match ?o with Normal _ => [] | Throw e => _ end] => destruct o
  end; [reflexivity | apply quiet_requests, Hh].
Qed.

Lemma discoverActor_turned_away handle w past :
  turned_away handle = true ->
  discoverActor handle w past = (Throw invalid_handle_format, [discovering handle]).
Proof.
  intros H. unfold discoverActor.
  fold (username_of handle) (domain_of handle). fold (turned_away handle). rewrite H.
  reflexivity.
Qed.

Lemma discoverActor_accepted handle w past :
  turned_away handle = false ->
  requests (emitted (discoverActor handle) w past) =
  [webfinger_request (webfinger_url (piece_text (domain_of handle)) handle)].
Proof.
  intros H. unfold discoverActor.
  fold (username_of handle) (domain_of handle). fold (turned_away handle). rewrite H.
  fold (webfinger_url (piece_text (domain_of handle)) handle).
  cbv beta iota zeta.
  rewrite emitted_bind, requests_app.
  unfold console_log at 1 2. rewrite emitted_print, result_print by reflexivity.
  simpl requests at 1. unfold console_log at 1.
  apply requests_of_one_request; [reflexivity | | apply discovery_failed_quiet ].
  intros data.
  repeat emits_step; auto using emits_print, emits_ret, extract_actor_url_quiet.
  all: exact I.
Qed.

(** A handle [user@domain], or [user@domain@...], passes the test. *)
Lemma shape_accepted user domain tail :
  has_at user = false -> has_at domain = false -> user <> "" -> domain <> "" ->
  tail = "" \/ (exists rest, tail = "@" +++ rest) ->
  turned_away (user +++ "@" +++ domain +++ tail) = false /\
  domain_of (user +++ "@" +++ domain +++ tail) = Some domain.
Proof.
  intros Hu Hd Hun Hdn Htail.
  unfold turned_away, username_of, domain_of.
  rewrite split_on_first_at by assumption.
  assert (Hs : exists more, split_on "@" (domain +++ tail) = domain :: more).
  { destruct Htail as [-> | [rest ->]].
    - exists []. rewrite <- (split_on_without_at domain Hd). f_equal.
      clear. induction domain as [| c d IH]; simpl; [reflexivity | now rewrite IH].
    - exists (split_on "@" rest). now apply split_on_first_at. }
  destruct Hs as [more ->]. simpl.
  destruct user; [congruence |]. destruct domain; [congruence |]. now split.
Qed.

(** C1 (as amended). A handle is malformed for [discoverActor] when it has no
    [@], nothing before its first [@], or nothing between its first [@] and
    the next one or the end.  Exactly on these handles the call throws the
    error "Invalid handle format" without a request. *)
Theorem malformed_handles_are_turned_away (w : world) (past : list event) (handle : string) :
  malformed handle <->
  result (discoverActor handle) w past = Throw invalid_handle_format /\
  requests (emitted (discoverActor handle) w past) = [].
Proof.
  rewrite <- turned_away_malformed. split.
  - intros H. unfold result, emitted.
    rewrite (discoverActor_turned_away _ _ _ H). now split.
  - intros [_ Hreq]. destruct (turned_away handle) eqn:H; [reflexivity |].
    rewrite (discoverActor_accepted _ _ _ H) in Hreq. discriminate.
Qed.

(** C1, the counterexample: [user@a@b] has two [@], so the specification
    calls it malformed, and [discoverActor] sends a request for it. *)
Lemma handle_with_two_ats_is_requested :
  Spec.handle_ok "user@a@b" = false /\
  requests (emitted (discoverActor "user@a@b") offline []) =
    [webfinger_request "https://a/.well-known/webfinger?resource=acct:user@a@b"] /\
  result (discoverActor "user@a@b") offline [] <> Throw invalid_handle_format.
Proof. vm_compute. repeat split. discriminate. Qed.

(** C2 (as amended). For a handle [user@domain] the script issues exactly
    one request, the WebFinger GET, and its URL is the text
    [https://domain/.well-known/webfinger?resource=acct:user@domain] with
    user and domain copied as they are: nothing is percent-encoded. *)
Theorem webfinger_url_is_verbatim (w : world) (past : list event) (user domain : string) :
  has_at user = false -> has_at domain = false -> user <> "" -> domain <> "" ->
  requests (emitted (discoverActor (user +++ "@" +++ domain)) w past) =
  [webfinger_request
     ("https://" +++ domain +++ "/.well-known/webfinger?resource=acct:" +++
      user +++ "@" +++ domain)].
Proof.
  intros Hu Hd Hun Hdn.
  destruct (shape_accepted user domain "" Hu Hd Hun Hdn (or_introl eq_refl)) as [Ht Hdom].
  assert (E : domain +++ "" = domain).
  { clear. induction domain as [| c d IH]; simpl; [reflexivity | now rewrite IH]. }
  rewrite E in Ht, Hdom.
  rewrite (discoverActor_accepted _ _ _ Ht), Hdom. reflexivity.
Qed.

Lemma webfinger_url_is_verbatim_witness :
  requests (emitted (discoverActor ("alice" +++ "@" +++ "example.org")) offline []) =
  [webfinger_request
     ("https://" +++ "example.org" +++ "/.well-known/webfinger?resource=acct:" +++
      "alice" +++ "@" +++ "example.org")].
Proof.
  apply (webfinger_url_is_verbatim offline [] "alice" "example.org");
    solve [reflexivity | discriminate].
Defined.

(** C2, the counterexample: the [&] of the user [a&b] reaches the URL as it
    is, where the specification wants [%26]. *)
Lemma ampersand_is_not_percent_encoded :
  requests (emitted (discoverActor "a&b@example.org") offline []) =
    [webfinger_request "https://example.org/.well-known/webfinger?resource=acct:a&b@example.org"] /\
  Spec.webfinger_url "a&b" "example.org" =
    "https://example.org/.well-known/webfinger?resource=acct:a%26b@example.org" /\
  requests (emitted (discoverActor "a&b@example.org") offline []) <>
    [webfinger_request (Spec.webfinger_url "a&b" "example.org")].
Proof. vm_compute. repeat split. discriminate. Qed.

(** C10 (as amended). A handle with two or more [@] whose text before the
    first [@] and whose text between the first two [@] are both non-empty
    passes the validation: one WebFinger request is issued, to the domain
    between the first and the second [@], with the whole handle, as it is,
    after [resource=acct:]. *)
Theorem further_ats_pass_validation
  (w : world) (past : list event) (user domain rest : string) :
  has_at user = false -> has_at domain = false -> user <> "" -> domain <> "" ->
  requests (emitted (discoverActor (user +++ "@" +++ domain +++ "@" +++ rest)) w past) =
  [webfinger_request
     ("https://" +++ domain +++ "/.well-known/webfinger?resource=acct:" +++
      (user +++ "@" +++ domain +++ "@" +++ rest))].
Proof.
  intros Hu Hd Hun Hdn.
  destruct (shape_accepted user domain ("@" +++ rest) Hu Hd Hun Hdn) as [Ht Hdom];
    [right; now exists rest |].
  rewrite (discoverActor_accepted _ _ _ Ht), Hdom. reflexivity.
Qed.

Lemma further_ats_pass_validation_witness :
  requests (emitted (discoverActor ("user" +++ "@" +++ "a" +++ "@" +++ "b")) offline []) =
  [webfinger_request
     ("https://" +++ "a" +++ "/.well-known/webfinger?resource=acct:" +++
      ("user" +++ "@" +++ "a" +++ "@" +++ "b"))].
Proof.
  apply (further_ats_pass_validation offline [] "user" "a" "b");
    solve [reflexivity | discriminate].
Defined.

(** C10, the counterexample: the handle [@user@instance.com] of the header
    comment has two [@] and fails the validation, without a request. *)
Lemma leading_at_fails_validation :
  Spec.count_at "@user@instance.com" = 2 /\
  discoverActor "@user@instance.com" offline [] =
    (Throw invalid_handle_format, [discovering "@user@instance.com"]).
Proof. vm_compute. split; reflexivity. Qed.

(** ** The actor URL of a WebFinger document *)

Lemma find_first_activity_link links w past :
  forallb readable_link links = true ->
  find_first (fun link => t <- get link "type" ;;
                          ret (strict_eq_str t "application/activity+json")) links w past =
  (Normal (match List.find is_activity_link links with
           | Some link => link
           | None => VUndefined
           end), []).
Proof.
  revert past. induction links as [| link links IH]; intros past H; [reflexivity |].
  simpl in H. apply andb_prop in H as [Hl H].
  unfold readable_link in Hl. apply andb_prop in Hl as [Hn _].
  apply negb_true_iff in Hn.
  simpl. unfold bind at 1, get at 1. rewrite Hn. simpl. unfold is_activity_link.
  destruct (strict_eq_str (member link "type") "application/activity+json"); [reflexivity |].
  rewrite app_nil_r. rewrite (IH past H). reflexivity.
Qed.

Lemma find_some_readable links link :
  forallb readable_link links = true ->
  List.find is_activity_link links = Some link ->
  nullish link = false /\ convertible (member link "href") = true.
Proof.
  intros H Hf. apply find_some in Hf as [Hin _].
  rewrite forallb_forall in H. specialize (H _ Hin).
  unfold readable_link in H. apply andb_prop in H as [Hn Hc].
  now apply negb_true_iff in Hn.
Qed.

Lemma extract_actor_url_jrd doc links w past :
  jrd_with_links doc links ->
  extract_actor_url doc w past = (Normal (actor_url_of links), []).
Proof.
  intros [Hdoc Hlinks]. destruct doc as [| | | | | | ms]; try contradiction.
  unfold extract_actor_url, actor_url_of, bind at 1, get at 1. simpl.
  destruct (own "links" ms) as [l |]; subst; simpl; [| reflexivity].
  unfold bind. rewrite find_first_activity_link by assumption.
  destruct (List.find is_activity_link links) as [link |] eqn:Hf; [| reflexivity].
  destruct (find_some_readable _ _ Hlinks Hf) as [Hn _].
  unfold get. rewrite Hn. reflexivity.
Qed.

Lemma actor_url_of_convertible links :
  forallb readable_link links = true -> convertible (actor_url_of links) = true.
Proof.
  intros H. unfold actor_url_of.
  destruct (List.find is_activity_link links) as [link |] eqn:Hf; [| reflexivity].
  now destruct (find_some_readable _ _ H Hf).
Qed.

Lemma discoverActor_resolved handle w past doc links :
  turned_away handle = false ->
  net w (past ++ before_request handle) (request_of handle) = Resolved doc ->
  jrd_with_links doc links ->
  result (discoverActor handle) w past =
  Normal {| handle := handle; webfingerData := doc; actorUrl := actor_url_of links |}.
Proof.
  intros H Hnet Hdoc. unfold discoverActor.
  fold (username_of handle) (domain_of handle). fold (turned_away handle). rewrite H.
  fold (webfinger_url (piece_text (domain_of handle)) handle).
  cbv beta iota zeta.
  unfold request_of, before_request, discovering, making_request in Hnet.
  set (u := webfinger_url _ _) in *.
  unfold console_log.
  rewrite result_bind, result_print, emitted_print by reflexivity.
  rewrite result_try, result_bind, result_print, emitted_print by reflexivity.
  rewrite result_bind, result_axios_get, emitted_axios_get.
  rewrite <- app_assoc. simpl app at 1. rewrite Hnet.
  rewrite !result_bind, !result_print, !emitted_print by reflexivity.
  unfold result at 1, emitted at 1 2.
  rewrite !(extract_actor_url_jrd _ _ _ _ Hdoc). simpl fst. simpl snd.
  cbv beta iota. rewrite result_bind.
  assert (Hc := actor_url_of_convertible links (proj2 Hdoc)).
  destruct (truthy (actor_url_of links)); [| reflexivity].
  rewrite result_print by (simpl; now rewrite Hc). reflexivity.
Qed.

Lemma actor_url_of_first_match before link after :
  forallb (fun l => negb (is_activity_link l)) before = true ->
  is_activity_link link = true ->
  actor_url_of (before ++ link :: after) = member link "href".
Proof.
  intros Hb Hl. unfold actor_url_of.
  induction before as [| x before IH]; simpl.
  - now rewrite Hl.
  - simpl in Hb. apply andb_prop in Hb as [Hx Hb].
    apply negb_true_iff in Hx. rewrite Hx. now apply IH.
Qed.

Lemma actor_url_of_no_match links :
  forallb (fun l => negb (is_activity_link l)) links = true ->
  actor_url_of links = VUndefined.
Proof.
  intros H. unfold actor_url_of.
  induction links as [| x links IH]; simpl; [reflexivity |].
  simpl in H. apply andb_prop in H as [Hx H].
  apply negb_true_iff in Hx. rewrite Hx. now apply IH.
Qed.

(** C3. When the WebFinger request of a handle that passes the validation is
    answered with a document of zero or more links, [discoverActor] returns
    the handle, the document as received, and as [actorUrl] the [href] of the
    first link whose [type] is exactly [application/activity+json]: the link
    after links of other types, whatever follows it, also another link of
    that type; [actorUrl] is [undefined], without an error, when no link has
    that type. *)
Theorem first_activity_link_wins
  (w : world) (past : list event) (handle : string) (doc : value) (links : list value) :
  ~ malformed handle ->
  net w (past ++ before_request handle) (request_of handle) = Resolved doc ->
  jrd_with_links doc links ->
  result (discoverActor handle) w past =
    Normal {| handle := handle; webfingerData := doc; actorUrl := actor_url_of links |} /\
  (forall before link after,
      links = before ++ link :: after ->
      forallb (fun l => negb (is_activity_link l)) before = true ->
      is_activity_link link = true ->
      actor_url_of links = member link "href") /\
  (forallb (fun l => negb (is_activity_link l)) links = true ->
   actor_url_of links = VUndefined).
Proof.
  intros Hwell Hnet Hdoc. split; [| split].
  - apply (discoverActor_resolved handle w past doc links); try assumption.
    destruct (turned_away handle) eqn:H; [| reflexivity].
    elim Hwell. now apply turned_away_malformed.
  - intros before link after -> Hb Hl. now apply actor_url_of_first_match.
  - apply actor_url_of_no_match.
Qed.

Lemma first_activity_link_wins_witness :
  result (discoverActor "alice@example.org") (serving alice_site) [] =
    Normal {| handle := "alice@example.org";
              webfingerData := alice_jrd;
              actorUrl := VStr "https://example.org/users/alice" |} /\
  (forall before link after,
      alice_links = before ++ link :: after ->
      forallb (fun l => negb (is_activity_link l)) before = true ->
      is_activity_link link = true ->
      actor_url_of alice_links = member link "href") /\
  (forallb (fun l => negb (is_activity_link l)) alice_links = true ->
   actor_url_of alice_links = VUndefined).
Proof.
  apply (first_activity_link_wins (serving alice_site) [] "alice@example.org"
           alice_jrd alice_links).
  - intros H. apply turned_away_malformed in H. vm_compute in H. discriminate.
  - reflexivity.
  - split; reflexivity.
Defined.

Lemma activity_link_type link :
  is_activity_link link = true -> member link "type" = VStr "application/activity+json".
Proof.
  unfold is_activity_link, strict_eq_str.
  destruct (member link "type"); try discriminate.
  intros H. apply String.eqb_eq in H. now subst.
Qed.

Lemma ld_json_is_no_activity_link link :
  is_ld_json_link link = true -> is_activity_link link = false.
Proof.
  unfold is_ld_json_link, is_activity_link, strict_eq_str.
  destruct (member link "type"); try discriminate.
  intros H. apply String.eqb_eq in H. now subst.
Qed.

Lemma no_activity_link_among_ld_json links :
  forallb is_ld_json_link links = true -> List.find is_activity_link links = None.
Proof.
  induction links as [| link links IH]; simpl; [reflexivity |].
  intros H. apply andb_prop in H as [Hl H].
  now rewrite (ld_json_is_no_activity_link _ Hl), IH.
Qed.

(** C4 (as amended). The link selected as the actor link is the first link
    whose [type] is exactly [application/activity+json]: the [actorUrl]
    returned is its [href], and it is [undefined] when no link has that
    type, in particular when the links of the document all have the type
    [application/ld+json]. *)
Theorem only_activity_json_links_are_selected
  (w : world) (past : list event) (handle : string) (doc : value) (links : list value) :
  ~ malformed handle ->
  net w (past ++ before_request handle) (request_of handle) = Resolved doc ->
  jrd_with_links doc links ->
  exists d,
    result (discoverActor handle) w past = Normal d /\
    (forall link, List.find is_activity_link links = Some link ->
                  member link "type" = VStr "application/activity+json" /\
                  actorUrl d = member link "href") /\
    (List.find is_activity_link links = None -> actorUrl d = VUndefined) /\
    (forallb is_ld_json_link links = true -> actorUrl d = VUndefined).
Proof.
  intros Hwell Hnet Hdoc.
  assert (Ht : turned_away handle = false).
  { destruct (turned_away handle) eqn:H; [| reflexivity].
    elim Hwell. now apply turned_away_malformed. }
  eexists. split; [exact (discoverActor_resolved handle w past doc links Ht Hnet Hdoc) |].
  unfold actor_url_of. simpl. repeat split.
  - apply find_some in H as [_ H]. now apply activity_link_type.
  - now rewrite H.
  - intros H. now rewrite H.
  - intros H. now rewrite (no_activity_link_among_ld_json _ H).
Qed.

Lemma only_activity_json_links_are_selected_witness :
  exists d,
    result (discoverActor "alice@example.org") (serving alice_site) [] = Normal d /\
    (forall link, List.find is_activity_link alice_links = Some link ->
                  member link "type" = VStr "application/activity+json" /\
                  actorUrl d = member link "href") /\
    (List.find is_activity_link alice_links = None -> actorUrl d = VUndefined) /\
    (forallb is_ld_json_link alice_links = true -> actorUrl d = VUndefined).
Proof.
  apply (only_activity_json_links_are_selected (serving alice_site) []
           "alice@example.org" alice_jrd alice_links).
  - intros H. apply turned_away_malformed in H. vm_compute in H. discriminate.
  - reflexivity.
  - split; reflexivity.
Defined.

(** C4, the counterexample: the only link of the document has the type
    [application/ld+json], and its [href] is not returned. *)
Lemma ld_json_link_is_not_selected :
  member alice_ld_jrd "links" =
    VArr [VObj [("rel", VStr "self");
                ("type", VStr "application/ld+json");
                ("href", VStr "https://example.org/users/alice")]] /\
  result (discoverActor "alice@example.org")
         (serving [("https://example.org/.well-known/webfinger?resource=acct:alice@example.org",
                    alice_ld_jrd)]) [] =
  Normal {| handle := "alice@example.org";
            webfingerData := alice_ld_jrd;
            actorUrl := VUndefined |}.
Proof. vm_compute. split; reflexivity. Qed.

(** ** Runs whose steps are known *)

Lemma get_member v k w past : nullish v = false -> get v k w past = (Normal (member v k), []).
Proof. intros H. unfold get. now rewrite H. Qed.

Lemma result_bind_normal {A B} (m : M A) (k : A -> M B) w past a es :
  m w past = (Normal a, es) ->
  result (bind m k) w past = result (k a) w (past ++ es).
Proof. intros H. rewrite result_bind. unfold result at 1, emitted. now rewrite H. Qed.

Lemma emitted_bind_normal {A B} (m : M A) (k : A -> M B) w past a es :
  m w past = (Normal a, es) ->
  emitted (bind m k) w past = es ++ emitted (k a) w (past ++ es).
Proof. intros H. rewrite emitted_bind. unfold result, emitted at 1 3. now rewrite H. Qed.

Lemma bind_normal {A B} (m : M A) (k : A -> M B) w past a es :
  m w past = (Normal a, es) ->
  bind m k w past = (result (k a) w (past ++ es), es ++ emitted (k a) w (past ++ es)).
Proof.
  intros H. rewrite run_eta.
  now rewrite (result_bind_normal _ _ _ _ _ _ H), (emitted_bind_normal _ _ _ _ _ _ H).
Qed.

Lemma bind_throw {A B} (m : M A) (k : A -> M B) w past e es :
  m w past = (Throw e, es) -> bind m k w past = (Throw e, es).
Proof. intros H. unfold bind. now rewrite H. Qed.

Lemma try_catch_normal {A} (m : M A) (h : error -> M A) w past a es :
  m w past = (Normal a, es) -> try_catch m h w past = (Normal a, es).
Proof. intros H. unfold try_catch. now rewrite H. Qed.

Lemma try_catch_throw {A} (m : M A) (h : error -> M A) w past e es :
  m w past = (Throw e, es) ->
  try_catch m h w past = (result (h e) w (past ++ es), es ++ emitted (h e) w (past ++ es)).
Proof.
  intros H. unfold try_catch, result, emitted. rewrite H.
  now destruct (h e w (past ++ es)).
Qed.

Lemma select_activities page w past :
  nullish page = false ->
  (if truthy (member page "orderedItems") then ret (member page "orderedItems")
   else items <- get page "items" ;; ret (or_else items (VArr []))) w past
  = (Normal (page_activities page), []).
Proof.
  intros Hpage. unfold page_activities, or_else.
  destruct (truthy (member page "orderedItems")) eqn:E; [reflexivity |].
  unfold bind. now rewrite get_member.
Qed.

Lemma convertible_line label v :
  convertible v = true -> forallb part_ok [Lit label; Sub v] = true.
Proof. intros H. simpl. now rewrite H. Qed.

(** The inner [try] of [fetchActorOutbox] never throws. *)
Lemma first_page_try first limit w past :
  try_catch (show_first_page first limit)
            (fun _ => print stdout red [Lit "❌ Could not fetch outbox activities"]) w past =
  (Normal tt,
   emitted (show_first_page first limit) w past ++
   match result (show_first_page first limit) w past with
   | Normal _ => []
   | Throw _ => [could_not_fetch]
   end).
Proof.
  unfold try_catch. rewrite (run_eta (show_first_page first limit) w past).
  destruct (result (show_first_page first limit) w past) as [[] | e].
  - now rewrite app_nil_r.
  - reflexivity.
Qed.

Ltac known_run :=
  first [ eassumption
        | apply print_line; first [reflexivity | apply convertible_line; assumption]
        | apply get_member; assumption
        | apply select_activities; assumption
        | apply first_page_try ].

Ltac normal_step :=
  unfold console_log, console_error;
  first [ erewrite result_bind_normal by known_run
        | erewrite emitted_bind_normal by known_run ].

Lemma show_first_page_resolved first limit page items w past :
  net w past (activity_request first) = Resolved page ->
  nullish page = false ->
  page_activities page = VArr items ->
  show_first_page first limit w past =
  (result (for_each (slice0 items limit) show_activity) w
          (past ++ [EvRequest (activity_request first); showing limit (VArr items)]),
   [EvRequest (activity_request first); showing limit (VArr items)] ++
   emitted (for_each (slice0 items limit) show_activity) w
           (past ++ [EvRequest (activity_request first); showing limit (VArr items)])).
Proof.
  intros Hnet Hpage Hitems. rewrite run_eta. unfold show_first_page.
  assert (Hreq : axios_get (activity_request first) w past =
                 (Normal page, [EvRequest (activity_request first)])).
  { unfold axios_get. now rewrite Hnet. }
  f_equal.
  - repeat normal_step.
    rewrite Hitems. repeat normal_step.
    rewrite !app_nil_r, <- app_assoc. reflexivity.
  - repeat normal_step.
    rewrite Hitems. repeat normal_step.
    rewrite !app_nil_r, <- app_assoc. reflexivity.
Qed.

Lemma show_first_page_rejected first limit e w past :
  net w past (activity_request first) = Rejected e ->
  show_first_page first limit w past = (Throw e, [EvRequest (activity_request first)]).
Proof.
  intros Hnet. unfold show_first_page. apply bind_throw.
  unfold axios_get. now rewrite Hnet.
Qed.

Lemma show_outbox_served w past outboxUrl outbox limit :
  outbox_served w past outboxUrl outbox ->
  show_outbox outboxUrl limit w (past ++ [fetching_outbox outboxUrl]) =
  (Normal VUndefined,
   [EvRequest (activity_request outboxUrl); outbox_fetched outbox;
    first_page_line (member outbox "first")] ++
   emitted (show_first_page (member outbox "first") limit) w
           (past ++ before_first_page outboxUrl outbox) ++
   match result (show_first_page (member outbox "first") limit) w
                (past ++ before_first_page outboxUrl outbox) with
   | Normal _ => []
   | Throw _ => [could_not_fetch]
   end).
Proof.
  intros (Ht & Hc & Hnet & Hn & Hct & Hf & Hcf).
  assert (Hreq : axios_get (activity_request outboxUrl) w (past ++ [fetching_outbox outboxUrl]) =
                 (Normal outbox, [EvRequest (activity_request outboxUrl)])).
  { unfold axios_get. now rewrite Hnet. }
  rewrite run_eta. unfold show_outbox, before_first_page.
  f_equal.
  - repeat normal_step. rewrite Hf. repeat normal_step. reflexivity.
  - repeat normal_step. rewrite Hf. repeat normal_step.
    rewrite !app_nil_r, <- !app_assoc. simpl. reflexivity.
Qed.

Lemma slice0_firstn {A} (l : list A) (limit : Z) :
  (0 <= limit)%Z -> slice0 l limit = firstn (Z.to_nat limit) l.
Proof.
  intros H. unfold slice0.
  destruct (Z.ltb_spec limit 0) as [Hneg | _]; [lia |].
  destruct (Z.le_gt_cases limit (Z.of_nat (List.length l))) as [Hle | Hgt].
  - now rewrite Z.min_l.
  - rewrite Z.min_r, Nat2Z.id by lia.
    rewrite firstn_all. symmetry. apply firstn_all2. lia.
Qed.

Lemma fetchActorOutbox_served w past outboxUrl outbox limit :
  outbox_served w past outboxUrl outbox ->
  fetchActorOutbox outboxUrl limit w past =
  (Normal VUndefined,
   before_first_page outboxUrl outbox ++
   emitted (show_first_page (member outbox "first") (limit_of limit)) w
           (past ++ before_first_page outboxUrl outbox) ++
   match result (show_first_page (member outbox "first") (limit_of limit)) w
                (past ++ before_first_page outboxUrl outbox) with
   | Normal _ => []
   | Throw _ => [could_not_fetch]
   end).
Proof.
  intros Hs. pose proof Hs as (Ht & Hc & _).
  unfold fetchActorOutbox. rewrite Ht. cbn [negb]. cbv iota zeta.
  unfold console_log at 1.
  erewrite bind_normal by (apply print_line, convertible_line, Hc).
  unfold result at 1, emitted at 1.
  erewrite !try_catch_normal by (apply show_outbox_served, Hs).
  reflexivity.
Qed.

Lemma fetchActorOutbox_rejected w past outboxUrl limit e :
  truthy outboxUrl = true -> convertible outboxUrl = true ->
  net w (past ++ [fetching_outbox outboxUrl]) (activity_request outboxUrl) = Rejected e ->
  fetchActorOutbox outboxUrl limit w past =
  (Normal VUndefined,
   [fetching_outbox outboxUrl; EvRequest (activity_request outboxUrl); failed_to_fetch e]).
Proof.
  intros Ht Hc Hnet.
  unfold fetchActorOutbox. rewrite Ht. cbn [negb]. cbv iota zeta.
  unfold console_log at 1.
  erewrite bind_normal by (apply print_line, convertible_line, Hc).
  assert (Hbody : show_outbox outboxUrl (limit_of limit) w
                    (past ++ [fetching_outbox outboxUrl]) =
                  (Throw e, [EvRequest (activity_request outboxUrl)])).
  { unfold show_outbox. apply bind_throw. unfold axios_get. now rewrite Hnet. }
  unfold result at 1, emitted at 1.
  rewrite !(try_catch_throw _ _ _ _ _ _ Hbody).
  reflexivity.
Qed.

(** ** The outbox *)

(** C5 (as amended). With an absent outbox URL ([undefined], or [null]), for
    every limit, [fetchActorOutbox] prints a warning, issues no request,
    throws nothing, and returns [undefined]: it returns no sequence. *)
Theorem absent_outbox_is_a_no_op (w : world) (past : list event) (limit : option Z) :
  fetchActorOutbox VUndefined limit w past =
    (Normal VUndefined, [EvConsole stdout yellow [Lit "⚠️ No outbox URL available"]]) /\
  fetchActorOutbox VNull limit w past =
    (Normal VUndefined, [EvConsole stdout yellow [Lit "⚠️ No outbox URL available"]]) /\
  requests (emitted (fetchActorOutbox VUndefined limit) w past) = [] /\
  requests (emitted (fetchActorOutbox VNull limit) w past) = [].
Proof. repeat split. Qed.

(** C5, the counterexample: what [fetchActorOutbox(undefined, 5)] returns is
    [undefined], not the empty array. *)
Lemma absent_outbox_returns_no_sequence :
  result (fetchActorOutbox VUndefined (Some 5%Z)) offline [] = Normal VUndefined /\
  result (fetchActorOutbox VUndefined (Some 5%Z)) offline [] <> Normal (VArr []).
Proof. split; [reflexivity | discriminate]. Qed.

Lemma yields_ret {A} (Q : A -> Prop) a : Q a -> yields Q (ret a).
Proof. intros H w past b E. injection E as <-. exact H. Qed.

Lemma yields_bind {A B} (Q : B -> Prop) (m : M A) (k : A -> M B) :
  (forall a, yields Q (k a)) -> yields Q (bind m k).
Proof.
  intros Hk w past b. rewrite result_bind.
  destruct (result m w past); [apply Hk | discriminate].
Qed.

Lemma show_outbox_yields_undefined outboxUrl limit :
  yields (eq VUndefined) (show_outbox outboxUrl limit).
Proof.
  unfold show_outbox. repeat (apply yields_bind; intro).
  destruct (truthy _); repeat (apply yields_bind; intro); now apply yields_ret.
Qed.

(** Once its first line is printed, [fetchActorOutbox] returns. *)
Lemma fetchActorOutbox_returns outboxUrl limit w past :
  convertible outboxUrl = true ->
  result (fetchActorOutbox outboxUrl limit) w past = Normal VUndefined.
Proof.
  intros Hc. unfold fetchActorOutbox.
  destruct (truthy outboxUrl); cbn [negb]; cbv iota zeta; [| reflexivity].
  unfold console_log at 1.
  rewrite result_bind, result_print, emitted_print by (simpl; now rewrite Hc).
  rewrite result_try.
  match goal with |- match ?r with _ => _ end = _ => destruct r eqn:E end.
  - apply show_outbox_yields_undefined in E. now subst.
  - reflexivity.
Qed.

Lemma result_bind_inv {A B} (m : M A) (k : A -> M B) w past b :
  result (bind m k) w past = Normal b ->
  exists a later, result m w past = Normal a /\ result (k a) w later = Normal b.
Proof.
  rewrite result_bind. destruct (result m w past) as [a | e]; [eauto | discriminate].
Qed.

Lemma result_get_inv v k w past a :
  result (get v k) w past = Normal a -> nullish v = false /\ a = member v k.
Proof.
  unfold result, get. destruct (nullish v); [discriminate |].
  simpl. intros E. injection E as <-. now split.
Qed.

Lemma show_when_set_inv label v w past :
  result (show_when_set label v) w past = Normal tt ->
  truthy v = true -> convertible v = true.
Proof.
  unfold show_when_set, console_log. intros H Ht. rewrite Ht in H.
  unfold result, print in H. simpl in H.
  destruct (convertible v); [reflexivity | discriminate].
Qed.

(** From a sequence that returned to its steps, which all returned. *)
Ltac peel_binds :=
  repeat match goal with
         | H : result (bind _ _) _ _ = Normal _ |- _ =>
             apply result_bind_inv in H; destruct H as (? & ? & ? & H); cbv beta in H
         end.

(** When [analyzeActor] returns, the actor is not nullish, and its outbox,
    if it is set, was printed. *)
Lemma analyzeActor_returned actor w past :
  result (analyzeActor actor) w past = Normal tt ->
  nullish actor = false /\
  (truthy (member actor "outbox") = true -> convertible (member actor "outbox") = true).
Proof.
  intros H. unfold analyzeActor in H. peel_binds.
  repeat match goal with
         | G : result (get _ _) _ _ = Normal _ |- _ =>
             apply result_get_inv in G; destruct G as [? ->]
         end.
  split; [assumption |].
  match goal with
  | G : result (show_when_set "Outbox: " _) _ _ = Normal ?u |- _ =>
      destruct u; exact (show_when_set_inv _ _ _ _ G)
  end.
Qed.

Lemma outbox_step_returns actor w past :
  (truthy (member actor "outbox") = true -> convertible (member actor "outbox") = true) ->
  result (fetchActorOutbox (member actor "outbox") (Some 3%Z)) w past = Normal VUndefined.
Proof.
  intros Hconv.
  destruct (truthy (member actor "outbox")) eqn:E.
  - apply fetchActorOutbox_returns. now apply Hconv.
  - unfold fetchActorOutbox. rewrite E. reflexivity.
Qed.

(** Once the first three stages returned, [analyzeActorComplete] ends with
    the events of the outbox stage, whatever they are. *)
Lemma analyzeActorComplete_reaches_outbox handle w past d actor :
  let p1 := past ++ analysis_start handle in
  let p2 := p1 ++ emitted (discoverActor handle) w p1 in
  let p3 := p2 ++ emitted (fetchActor (actorUrl d)) w p2 in
  let p4 := p3 ++ emitted (analyzeActor actor) w p3 in
  result (discoverActor handle) w p1 = Normal d ->
  truthy (actorUrl d) = true ->
  result (fetchActor (actorUrl d)) w p2 = Normal actor ->
  result (analyzeActor actor) w p3 = Normal tt ->
  analyzeActorComplete handle w past =
  (Normal VUndefined,
   analysis_start handle ++ emitted (discoverActor handle) w p1 ++
   emitted (fetchActor (actorUrl d)) w p2 ++ emitted (analyzeActor actor) w p3 ++
   emitted (fetchActorOutbox (member actor "outbox") (Some 3%Z)) w p4).
Proof.
  intros p1 p2 p3 p4 Hd Ht Hf Ha.
  destruct (analyzeActor_returned _ _ _ Ha) as [Hn Hconv].
  pose proof (outbox_step_returns actor w p4 Hconv) as Ho.
  unfold analyzeActorComplete. apply try_catch_normal.
  unfold console_log.
  rewrite run_eta. f_equal.
  - do 2 (erewrite result_bind_normal by (apply print_line; reflexivity)).
    rewrite <- !app_assoc. cbn [app]. fold (analysis_start handle). fold p1.
    rewrite result_bind, Hd. rewrite Ht. cbn [negb]. cbv iota.
    fold p2. rewrite result_bind, Hf. fold p3.
    rewrite result_bind, Ha. fold p4.
    erewrite result_bind_normal by (apply get_member; assumption).
    rewrite app_nil_r. rewrite result_bind, Ho. reflexivity.
  - do 2 (erewrite emitted_bind_normal by (apply print_line; reflexivity)).
    rewrite <- !app_assoc. cbn [app]. fold (analysis_start handle). fold p1.
    rewrite emitted_bind, Hd. rewrite Ht. cbn [negb]. cbv iota.
    fold p2. rewrite emitted_bind, Hf. fold p3.
    rewrite emitted_bind, Ha. fold p4.
    erewrite emitted_bind_normal by (apply get_member; assumption).
    rewrite app_nil_r. rewrite emitted_bind, Ho.
    unfold analysis_start. cbn [app].
    replace (emitted (ret VUndefined) w _) with (@nil event) by reflexivity.
    now rewrite app_nil_r.
Qed.

(** [orderedItems] comes first, [items] second. *)
Lemma page_activities_preference page :
  (truthy (member page "orderedItems") = true ->
   page_activities page = member page "orderedItems") /\
  (truthy (member page "orderedItems") = false ->
   truthy (member page "items") = true ->
   page_activities page = member page "items") /\
  (truthy (member page "orderedItems") = false ->
   truthy (member page "items") = false ->
   page_activities page = VArr []).
Proof.
  unfold page_activities, or_else. repeat split; intros H; rewrite H; try reflexivity.
  all: intros H'; now rewrite H'.
Qed.

(** C6 (as amended). When the outbox and its first page are served,
    [fetchActorOutbox] takes [orderedItems], or [items] when [orderedItems] is
    missing (or falsy), or nothing; when that is an array and the limit is
    not negative, the activities it goes through for display are the first
    [limit] items of the page in the order of the page (exactly [limit] of
    them when the page holds more), the display stopping with a warning at an
    item that cannot be displayed.  The function returns [undefined], not the
    sequence. *)
Theorem first_page_is_cut_to_the_limit
  (w : world) (past : list event) (outboxUrl outbox page : value)
  (items : list value) (limit : Z) :
  outbox_served w past outboxUrl outbox ->
  net w (past ++ before_first_page outboxUrl outbox)
        (activity_request (member outbox "first")) = Resolved page ->
  nullish page = false ->
  page_activities page = VArr items ->
  (0 <= limit)%Z ->
  let shown := firstn (Z.to_nat limit) items in
  let head := before_first_page outboxUrl outbox ++
              [EvRequest (activity_request (member outbox "first"));
               showing limit (VArr items)] in
  ((limit < Z.of_nat (List.length items))%Z -> List.length shown = Z.to_nat limit) /\
  fetchActorOutbox outboxUrl (Some limit) w past =
  (Normal VUndefined,
   head ++
   emitted (for_each shown show_activity) w (past ++ head) ++
   match result (for_each shown show_activity) w (past ++ head) with
   | Normal _ => []
   | Throw _ => [could_not_fetch]
   end).
Proof.
  intros Hs Hnet Hpage Hitems Hlimit shown head. split.
  - intros Hlt. unfold shown. apply firstn_length_le. lia.
  - rewrite (fetchActorOutbox_served _ _ _ _ _ Hs). simpl limit_of.
    unfold result at 1, emitted at 1.
    rewrite !(show_first_page_resolved _ limit _ _ _ _ Hnet Hpage Hitems).
    simpl fst. simpl snd.
    rewrite (slice0_firstn items limit Hlimit). fold shown.
    unfold head. rewrite <- !app_assoc. reflexivity.
Qed.

Lemma first_page_is_cut_to_the_limit_witness :
  let outboxUrl := VStr "https://example.org/users/alice/outbox" in
  let outbox := VObj [("type", VStr "OrderedCollection"); ("totalItems", VNum 10);
                      ("first", VStr "https://example.org/users/alice/outbox?page=true")] in
  let shown := firstn (Z.to_nat 3) ten_notes in
  let head := before_first_page outboxUrl outbox ++
              [EvRequest (activity_request (member outbox "first"));
               showing 3 (VArr ten_notes)] in
  ((3 < Z.of_nat (List.length ten_notes))%Z -> List.length shown = Z.to_nat 3) /\
  fetchActorOutbox outboxUrl (Some 3%Z) (serving alice_site) [] =
  (Normal VUndefined,
   head ++
   emitted (for_each shown show_activity) (serving alice_site) ([] ++ head) ++
   match result (for_each shown show_activity) (serving alice_site) ([] ++ head) with
   | Normal _ => []
   | Throw _ => [could_not_fetch]
   end).
Proof.
  apply (first_page_is_cut_to_the_limit (serving alice_site) []
           (VStr "https://example.org/users/alice/outbox")
           (VObj [("type", VStr "OrderedCollection"); ("totalItems", VNum 10);
                  ("first", VStr "https://example.org/users/alice/outbox?page=true")])
           (VObj [("type", VStr "OrderedCollectionPage"); ("orderedItems", VArr ten_notes)])
           ten_notes 3).
  - repeat split.
  - reflexivity.
  - reflexivity.
  - reflexivity.
  - lia.
Defined.

(** C6, the counterexample: a page of ten activities and the limit 3; the
    call returns [undefined], not the first three activities. *)
Lemma first_page_is_not_returned :
  member (VObj [("type", VStr "OrderedCollectionPage"); ("orderedItems", VArr ten_notes)])
         "orderedItems" = VArr ten_notes /\
  List.length ten_notes = 10 /\
  result (fetchActorOutbox (VStr "https://example.org/users/alice/outbox") (Some 3%Z))
         (serving alice_site) [] = Normal VUndefined /\
  result (fetchActorOutbox (VStr "https://example.org/users/alice/outbox") (Some 3%Z))
         (serving alice_site) [] <> Normal (VArr (firstn 3 ten_notes)).
Proof. repeat split. discriminate. Qed.

(** C7. When the request of the outbox, or the request of its first page,
    fails (axios rejects: network error, timeout, status outside 2xx), the
    error stays inside [fetchActorOutbox]: the call returns normally, after
    a red line that reports the failure, and no activity is displayed.  The
    analysis around it completes: once discovery, actor fetch and actor
    display returned, [analyzeActorComplete] returns normally and ends with
    the events of the outbox stage, without the line of a failed analysis. *)
Theorem outbox_failures_are_not_propagated
  (w : world) (past : list event) (outboxUrl : value) (limit : option Z) :
  truthy outboxUrl = true -> convertible outboxUrl = true ->
  result (fetchActorOutbox outboxUrl limit) w past = Normal VUndefined /\
  (forall e,
      net w (past ++ [fetching_outbox outboxUrl]) (activity_request outboxUrl) = Rejected e ->
      emitted (fetchActorOutbox outboxUrl limit) w past =
      [fetching_outbox outboxUrl; EvRequest (activity_request outboxUrl); failed_to_fetch e]) /\
  (forall outbox e,
      outbox_served w past outboxUrl outbox ->
      net w (past ++ before_first_page outboxUrl outbox)
            (activity_request (member outbox "first")) = Rejected e ->
      emitted (fetchActorOutbox outboxUrl limit) w past =
      before_first_page outboxUrl outbox ++
      [EvRequest (activity_request (member outbox "first")); could_not_fetch]) /\
  (forall handle d actor,
      let p1 := past ++ analysis_start handle in
      let p2 := p1 ++ emitted (discoverActor handle) w p1 in
      let p3 := p2 ++ emitted (fetchActor (actorUrl d)) w p2 in
      let p4 := p3 ++ emitted (analyzeActor actor) w p3 in
      result (discoverActor handle) w p1 = Normal d ->
      truthy (actorUrl d) = true ->
      result (fetchActor (actorUrl d)) w p2 = Normal actor ->
      result (analyzeActor actor) w p3 = Normal tt ->
      member actor "outbox" = outboxUrl ->
      analyzeActorComplete handle w past =
      (Normal VUndefined,
       analysis_start handle ++ emitted (discoverActor handle) w p1 ++
       emitted (fetchActor (actorUrl d)) w p2 ++ emitted (analyzeActor actor) w p3 ++
       emitted (fetchActorOutbox outboxUrl (Some 3%Z)) w p4)).
Proof.
  intros Ht Hc. split; [now apply fetchActorOutbox_returns |]. split; [| split].
  - intros e Hnet. unfold emitted.
    now rewrite (fetchActorOutbox_rejected _ _ _ limit _ Ht Hc Hnet).
  - intros outbox e Hs Hnet. unfold emitted at 1.
    rewrite (fetchActorOutbox_served _ _ _ _ _ Hs). simpl snd.
    unfold result, emitted.
    rewrite !(show_first_page_rejected _ (limit_of limit) _ _ _ Hnet).
    reflexivity.
  - intros handle d actor p1 p2 p3 p4 Hd Hu Hf Ha <-.
    now apply analyzeActorComplete_reaches_outbox.
Qed.

(** A network that serves the WebFinger document and the actor of alice,
    and answers 404 for her outbox. *)
Lemma outbox_failures_are_not_propagated_witness :
  let w := serving (firstn 2 alice_site) in
  let outboxUrl := VStr "https://example.org/users/alice/outbox" in
  result (fetchActorOutbox outboxUrl (Some 3%Z)) w [] = Normal VUndefined /\
  (forall e,
      net w ([] ++ [fetching_outbox outboxUrl]) (activity_request outboxUrl) = Rejected e ->
      emitted (fetchActorOutbox outboxUrl (Some 3%Z)) w [] =
      [fetching_outbox outboxUrl; EvRequest (activity_request outboxUrl); failed_to_fetch e]) /\
  (forall outbox e,
      outbox_served w [] outboxUrl outbox ->
      net w ([] ++ before_first_page outboxUrl outbox)
          (activity_request (member outbox "first")) = Rejected e ->
      emitted (fetchActorOutbox outboxUrl (Some 3%Z)) w [] =
      before_first_page outboxUrl outbox ++
      [EvRequest (activity_request (member outbox "first")); could_not_fetch]) /\
  (forall handle d actor,
      let p1 := [] ++ analysis_start handle in
      let p2 := p1 ++ emitted (discoverActor handle) w p1 in
      let p3 := p2 ++ emitted (fetchActor (actorUrl d)) w p2 in
      let p4 := p3 ++ emitted (analyzeActor actor) w p3 in
      result (discoverActor handle) w p1 = Normal d ->
      truthy (actorUrl d) = true ->
      result (fetchActor (actorUrl d)) w p2 = Normal actor ->
      result (analyzeActor actor) w p3 = Normal tt ->
      member actor "outbox" = outboxUrl ->
      analyzeActorComplete handle w [] =
      (Normal VUndefined,
       analysis_start handle ++ emitted (discoverActor handle) w p1 ++
       emitted (fetchActor (actorUrl d)) w p2 ++ emitted (analyzeActor actor) w p3 ++
       emitted (fetchActorOutbox outboxUrl (Some 3%Z)) w p4)).
Proof.
  apply (outbox_failures_are_not_propagated (serving (firstn 2 alice_site)) []
           (VStr "https://example.org/users/alice/outbox") (Some 3%Z));
    reflexivity.
Defined.

(** The outbox request fails with status 404: the run, in full. *)
Example outbox_not_found :
  fetchActorOutbox (VStr "https://example.org/users/alice/outbox") (Some 3%Z) offline [] =
  (Normal VUndefined,
   [EvConsole stdout blue [Lit "📤 Fetching actor's outbox: ";
                           Sub (VStr "https://example.org/users/alice/outbox")];
    EvRequest (activity_request (VStr "https://example.org/users/alice/outbox"));
    EvConsole stderr red [Lit "❌ Failed to fetch outbox: ";
                          Sub (VStr "Request failed with status code 404")]]).
Proof. reflexivity. Qed.

(** ** Loops over several handles *)

Lemma settles_ret {A} (a : A) : settles (ret a).
Proof. intros w past. now exists a. Qed.

Lemma settles_print s c line : forallb part_ok line = true -> settles (print s c line).
Proof. intros H w past. exists tt. now apply result_print. Qed.

Lemma settles_bind {A B} (m : M A) (k : A -> M B) :
  settles m -> (forall a, settles (k a)) -> settles (bind m k).
Proof.
  intros Hm Hk w past. rewrite result_bind.
  destruct (Hm w past) as [a ->]. apply Hk.
Qed.

Lemma settles_try {A} (m : M A) (h : error -> M A) :
  (forall e, settles (h e)) -> settles (try_catch m h).
Proof.
  intros Hh w past. rewrite result_try.
  destruct (result m w past) as [a | e]; [now exists a | apply Hh].
Qed.

Lemma settles_for_of {A} (xs : list A) (body : A -> M unit) :
  (forall x, settles (body x)) -> settles (for_of xs body).
Proof.
  intros Hb. induction xs as [| x xs IH]; simpl; [apply settles_ret |].
  apply settles_bind; [apply Hb | intros _; exact IH].
Qed.

Lemma webfinger_test_settles account : settles (webfinger_test account).
Proof. apply settles_try. intros _. now apply settles_print. Qed.

Lemma analyzeActorComplete_settles handle : settles (analyzeActorComplete handle).
Proof.
  apply settles_try. intros e.
  apply settles_bind; [now apply settles_print | intros _; apply settles_ret].
Qed.

Lemma actor_test_settles account : settles (actor_test account).
Proof.
  apply settles_bind; [apply analyzeActorComplete_settles |].
  intros _. now apply settles_print.
Qed.

Lemma settles_unit (m : M unit) w past : settles m -> result m w past = Normal tt.
Proof. intros H. destruct (H w past) as [[] E]. exact E. Qed.

(** In a loop whose turns all return, the events of every turn are emitted. *)
Lemma emitted_for_of_cons {A} (x : A) xs (body : A -> M unit) w past :
  settles (body x) ->
  emitted (for_of (x :: xs) body) w past =
  emitted (body x) w past ++
  emitted (for_of xs body) w (past ++ emitted (body x) w past).
Proof.
  intros H. simpl. rewrite emitted_bind. now rewrite (settles_unit _ _ _ H).
Qed.

Lemma for_of_reaches_each {A} (xs : list A) (body : A -> M unit) (mark : A -> event) :
  (forall x, settles (body x)) ->
  (forall x w past, In (mark x) (emitted (body x) w past)) ->
  forall w past, Forall (fun x => In (mark x) (emitted (for_of xs body) w past)) xs.
Proof.
  intros Hb Hmark. induction xs as [| x xs IH]; intros w past; constructor.
  - rewrite emitted_for_of_cons by apply Hb. apply in_or_app. left. apply Hmark.
  - rewrite emitted_for_of_cons by apply Hb.
    eapply Forall_impl; [| apply IH].
    intros y Hy. apply in_or_app. right. exact Hy.
Qed.

Lemma discoverActor_starts handle w past :
  exists es, emitted (discoverActor handle) w past = discovering handle :: es.
Proof.
  unfold discoverActor, console_log at 1.
  erewrite emitted_bind_normal by (now apply print_line). simpl. eauto.
Qed.

Lemma webfinger_test_run account w past :
  emitted (webfinger_test account) w past =
  test_separator ::
  emitted (discoverActor account) w (past ++ [test_separator]) ++
  match result (discoverActor account) w (past ++ [test_separator]) with
  | Normal _ => [EvConsole stdout plain [Lit nl]]
  | Throw _ => [skipping account]
  end.
Proof.
  unfold webfinger_test, console_log.
  rewrite emitted_try.
  erewrite emitted_bind_normal, result_bind_normal by (now apply print_line).
  fold test_separator.
  rewrite emitted_bind, result_bind.
  destruct (result (discoverActor account) w (past ++ [test_separator])) as [d | e];
    cbv beta iota.
  - rewrite emitted_print, result_print by reflexivity. now rewrite app_nil_r.
  - rewrite emitted_print by reflexivity. rewrite app_nil_r, <- app_assoc. reflexivity.
Qed.

Lemma analyzeActorComplete_aborted handle w past e :
  result (discoverActor handle) w (past ++ analysis_start handle) = Throw e ->
  emitted (analyzeActorComplete handle) w past =
  analysis_start handle ++
  emitted (discoverActor handle) w (past ++ analysis_start handle) ++
  [analysis_failed e].
Proof.
  intros H. unfold analyzeActorComplete, console_log.
  rewrite emitted_try.
  erewrite !emitted_bind_normal, !result_bind_normal by (now apply print_line).
  rewrite <- !app_assoc. unfold analysis_start in *. cbn [app] in *.
  rewrite emitted_bind, result_bind, H.
  unfold console_error.
  erewrite emitted_bind_normal by (now apply print_line).
  cbn [app]. rewrite !app_nil_r. reflexivity.
Qed.

Lemma analyzeActorComplete_actor_fetch_failed handle w past d e :
  result (discoverActor handle) w (past ++ analysis_start handle) = Normal d ->
  truthy (actorUrl d) = true ->
  result (fetchActor (actorUrl d)) w
         (past ++ analysis_start handle ++
          emitted (discoverActor handle) w (past ++ analysis_start handle)) = Throw e ->
  emitted (analyzeActorComplete handle) w past =
  analysis_start handle ++
  emitted (discoverActor handle) w (past ++ analysis_start handle) ++
  emitted (fetchActor (actorUrl d)) w
          (past ++ analysis_start handle ++
           emitted (discoverActor handle) w (past ++ analysis_start handle)) ++
  [analysis_failed e].
Proof.
  intros Hd Ht Hf. unfold analyzeActorComplete, console_log.
  rewrite emitted_try.
  erewrite !emitted_bind_normal, !result_bind_normal by (now apply print_line).
  rewrite <- !app_assoc. unfold analysis_start in *. cbn [app] in *.
  rewrite emitted_bind, result_bind, Hd. rewrite Ht. cbn [negb]. cbv iota.
  rewrite emitted_bind, result_bind.
  rewrite <- !app_assoc. cbn [app]. rewrite Hf.
  unfold console_error.
  erewrite emitted_bind_normal by (now apply print_line).
  cbn [app]. rewrite !app_nil_r, <- !app_assoc. reflexivity.
Qed.

Lemma webfinger_test_reaches_discovery account w past :
  In (discovering account) (emitted (webfinger_test account) w past).
Proof.
  rewrite webfinger_test_run. right. apply in_or_app. left.
  destruct (discoverActor_starts account w (past ++ [test_separator])) as [es ->].
  now left.
Qed.

Lemma analyzeActorComplete_reaches_discovery handle w past :
  In (discovering handle) (emitted (analyzeActorComplete handle) w past).
Proof.
  unfold analyzeActorComplete, console_log.
  rewrite emitted_try. apply in_or_app. left.
  erewrite !emitted_bind_normal by (now apply print_line).
  apply in_or_app. right. apply in_or_app. right.
  rewrite emitted_bind. apply in_or_app. left.
  match goal with
  | |- In _ (emitted (discoverActor handle) w ?p) =>
      destruct (discoverActor_starts handle w p) as [es ->]
  end.
  now left.
Qed.

Lemma actor_test_reaches_discovery account w past :
  In (discovering account) (emitted (actor_test account) w past).
Proof.
  unfold actor_test. rewrite emitted_bind. apply in_or_app. left.
  apply analyzeActorComplete_reaches_discovery.
Qed.

Lemma runWebFingerTests_over_settles accounts : settles (runWebFingerTests_over accounts).
Proof.
  unfold runWebFingerTests_over, console_log.
  repeat first [ apply settles_bind; [| intros _]
               | now apply settles_print
               | apply settles_for_of, webfinger_test_settles ].
Qed.

Lemma runActorTests_over_settles accounts : settles (runActorTests_over accounts).
Proof.
  unfold runActorTests_over, console_log.
  repeat first [ apply settles_bind; [| intros _]
               | now apply settles_print
               | apply settles_for_of, actor_test_settles ].
Qed.

(** C8. In the loops over several handles ([runWebFingerTests] over its
    accounts, [runActorTests] over its accounts) no failure leaves the loop:
    both loops return normally, every turn returns normally and is followed
    by the turns of the remaining handles, and the discovery of every handle
    of the list is started.  A failure ends the stages of its own handle
    only: when the discovery throws, or the actor fetch throws,
    [analyzeActorComplete] emits nothing of the later stages, just the line
    that reports the failure; when the discovery throws in
    [runWebFingerTests], the turn ends with the line that skips the
    account. *)
Theorem batch_failures_are_isolated
  (w : world) (past : list event) (accounts : list string) (account : string) :
  (result (runWebFingerTests_over accounts) w past = Normal tt /\
   result (runActorTests_over accounts) w past = Normal tt) /\
  (Forall (fun a => In (discovering a) (emitted (runWebFingerTests_over accounts) w past))
          accounts /\
   Forall (fun a => In (discovering a) (emitted (runActorTests_over accounts) w past))
          accounts) /\
  (result (webfinger_test account) w past = Normal tt /\
   emitted (for_of (account :: accounts) webfinger_test) w past =
     emitted (webfinger_test account) w past ++
     emitted (for_of accounts webfinger_test) w
             (past ++ emitted (webfinger_test account) w past)) /\
  (result (actor_test account) w past = Normal tt /\
   emitted (for_of (account :: accounts) actor_test) w past =
     emitted (actor_test account) w past ++
     emitted (for_of accounts actor_test) w
             (past ++ emitted (actor_test account) w past)) /\
  match result (discoverActor account) w (past ++ [test_separator]) with
  | Throw _ =>
      emitted (webfinger_test account) w past =
      test_separator ::
      emitted (discoverActor account) w (past ++ [test_separator]) ++ [skipping account]
  | Normal _ => True
  end /\
  let started := past ++ analysis_start account in
  match result (discoverActor account) w started with
  | Throw e =>
      emitted (analyzeActorComplete account) w past =
      analysis_start account ++ emitted (discoverActor account) w started ++
      [analysis_failed e]
  | Normal d =>
      let discovered := past ++ analysis_start account ++
                        emitted (discoverActor account) w started in
      if truthy (actorUrl d) then
        match result (fetchActor (actorUrl d)) w discovered with
        | Throw e =>
            emitted (analyzeActorComplete account) w past =
            analysis_start account ++ emitted (discoverActor account) w started ++
            emitted (fetchActor (actorUrl d)) w discovered ++ [analysis_failed e]
        | Normal _ => True
        end
      else True
  end.
Proof.
  repeat split.
  - apply settles_unit, runWebFingerTests_over_settles.
  - apply settles_unit, runActorTests_over_settles.
  - unfold runWebFingerTests_over, console_log.
    erewrite emitted_bind_normal by (now apply print_line).
    rewrite emitted_bind.
    eapply Forall_impl;
      [| apply (for_of_reaches_each accounts webfinger_test discovering
                  webfinger_test_settles webfinger_test_reaches_discovery)].
    intros a Ha. apply in_or_app. right. apply in_or_app. left. exact Ha.
  - unfold runActorTests_over, console_log.
    erewrite emitted_bind_normal by (now apply print_line).
    eapply Forall_impl;
      [| apply (for_of_reaches_each accounts actor_test discovering
                  actor_test_settles actor_test_reaches_discovery)].
    intros a Ha. apply in_or_app. right. exact Ha.
  - apply settles_unit, webfinger_test_settles.
  - apply emitted_for_of_cons, webfinger_test_settles.
  - apply settles_unit, actor_test_settles.
  - apply emitted_for_of_cons, actor_test_settles.
  - rewrite webfinger_test_run.
    destruct (result (discoverActor account) w (past ++ [test_separator])); [exact I |].
    reflexivity.
  - cbv zeta.
    destruct (result (discoverActor account) w (past ++ analysis_start account))
      as [d | e] eqn:Hd.
    + destruct (truthy (actorUrl d)) eqn:Ht; [| exact I].
      match goal with |- match ?r with _ => _ end => destruct r eqn:Hf end; [exact I |].
      now apply analyzeActorComplete_actor_fetch_failed.
    + now apply analyzeActorComplete_aborted.
Qed.

(** ** Runs on a small network *)

(** The four requests of a complete analysis, in order: discovery, actor,
    outbox, first page. *)
Example complete_analysis_of_alice :
  result (analyzeActorComplete "alice@example.org") (serving alice_site) [] =
    Normal VUndefined /\
  map url (requests (emitted (analyzeActorComplete "alice@example.org")
                             (serving alice_site) [])) =
  [VStr "https://example.org/.well-known/webfinger?resource=acct:alice@example.org";
   VStr "https://example.org/users/alice";
   VStr "https://example.org/users/alice/outbox";
   VStr "https://example.org/users/alice/outbox?page=true"].
Proof. vm_compute. split; reflexivity. Qed.

(** Ten activities on the page and the limit 3: the first three are
    displayed, in the order of the page. *)
Example first_three_of_ten_notes :
  emitted (for_each (slice0 ten_notes 3) show_activity) offline [] =
  [EvConsole stdout cyan [Lit nl; Sub (VNum 1); Lit ". Activity Type: "; Sub (VStr "Create")];
   EvConsole stdout white [Lit "   Published: "; Sub (VNum 1)];
   EvConsole stdout white [Lit "   Object Type: "; Sub (VStr "Note")];
   EvConsole stdout cyan [Lit nl; Sub (VNum 2); Lit ". Activity Type: "; Sub (VStr "Create")];
   EvConsole stdout white [Lit "   Published: "; Sub (VNum 2)];
   EvConsole stdout white [Lit "   Object Type: "; Sub (VStr "Note")];
   EvConsole stdout cyan [Lit nl; Sub (VNum 3); Lit ". Activity Type: "; Sub (VStr "Create")];
   EvConsole stdout white [Lit "   Published: "; Sub (VNum 3)];
   EvConsole stdout white [Lit "   Object Type: "; Sub (VStr "Note")]].
Proof. reflexivity. Qed.

(** An item that is [null] stops the display at once. *)
Example null_activity_stops_the_display :
  show_activities (VArr [VNull; note 1]) 5 offline [] =
  (Throw (TypeError "Cannot read properties of null (reading 'type')"), []).
Proof. reflexivity. Qed.

(** Tags are dropped from a text; a [<] that is never closed stays. *)
Example strip_tags_of_html :
  strip_tags "<p>Hello <b>world</b></p> 1 < 2" = "Hello world 1 < 2".
Proof. reflexivity. Qed.

(** The handle [bob] has no [@]: it is turned away before any request. *)
Example bob_is_turned_away :
  discoverActor "bob" offline [] = (Throw invalid_handle_format, [discovering "bob"]).
Proof. reflexivity. Qed.

(** The outbox of alice answers 404 in a complete analysis: the analysis
    returns, its last line reports the outbox, and no line reports a failed
    analysis. *)
Example outbox_failure_inside_complete_analysis :
  let run := analyzeActorComplete "alice@example.org" (serving (firstn 2 alice_site)) [] in
  fst run = Normal VUndefined /\
  last (snd run) test_separator =
    EvConsole stderr red [Lit "❌ Failed to fetch outbox: ";
                          Sub (VStr "Request failed with status code 404")] /\
  existsb (fun ev => match ev with
                     | EvConsole stderr red (Lit "❌ Actor analysis failed: " :: _) => true
                     | _ => false
                     end) (snd run) = false.
Proof. vm_compute. repeat split. Qed.


(** * Further properties of the scripts *)

(** ** The failures of the discovery *)


Lemma not_malformed_accepted handle : ~ malformed handle -> turned_away handle = false.
Proof.
  intros H. destruct (turned_away handle) eqn:E; [| reflexivity].
  elim H. now apply turned_away_malformed.
Qed.

Lemma result_bind_throw {A B} (m : M A) (k : A -> M B) w past e es :
  m w past = (Throw e, es) -> result (bind m k) w past = Throw e.
Proof. intros H. unfold result. now rewrite (bind_throw _ _ _ _ _ _ H). Qed.

Lemma emitted_bind_throw {A B} (m : M A) (k : A -> M B) w past e es :
  m w past = (Throw e, es) -> emitted (bind m k) w past = es.
Proof. intros H. unfold emitted. now rewrite (bind_throw _ _ _ _ _ _ H). Qed.

Lemma axios_get_resolved r w past data :
  net w past r = Resolved data -> axios_get r w past = (Normal data, [EvRequest r]).
Proof. intros H. unfold axios_get. now rewrite H. Qed.

Lemma axios_get_rejected r w past e :
  net w past r = Rejected e -> axios_get r w past = (Throw e, [EvRequest r]).
Proof. intros H. unfold axios_get. now rewrite H. Qed.

Lemma discovery_failed_run handle e w past :
  discovery_failed handle e w past = (Throw e, discovery_failed_lines handle e).
Proof.
  unfold discovery_failed, discovery_failed_lines.
  destruct (response e) as [[status data] |]; reflexivity.
Qed.

(** A handle that passes the test: the first line, then the [try]. *)
Lemma discoverActor_accepted_run handle w past :
  turned_away handle = false ->
  discoverActor handle w past =
  (result (discovery_attempt handle) w (past ++ [discovering handle]),
   discovering handle :: emitted (discovery_attempt handle) w (past ++ [discovering handle])).
Proof.
  intros H. unfold discoverActor.
  fold (username_of handle) (domain_of handle). fold (turned_away handle). rewrite H.
  cbv beta iota zeta. cbn [negb].
  unfold console_log at 1.
  erewrite bind_normal by (apply print_line; reflexivity).
  reflexivity.
Qed.

Lemma discovery_steps_rejected handle w past e :
  net w (past ++ before_request handle) (request_of handle) = Rejected e ->
  discovery_steps handle w (past ++ [discovering handle]) =
  (Throw e, [making_request (webfinger_url (piece_text (domain_of handle)) handle);
             EvRequest (request_of handle)]).
Proof.
  intros Hnet. unfold discovery_steps, console_log.
  erewrite bind_normal by (apply print_line; reflexivity).
  rewrite <- app_assoc. cbn [app].
  erewrite result_bind_throw, emitted_bind_throw by (apply axios_get_rejected, Hnet).
  reflexivity.
Qed.

Lemma discovery_steps_resolved handle w past data :
  net w (past ++ before_request handle) (request_of handle) = Resolved data ->
  let head := [making_request (webfinger_url (piece_text (domain_of handle)) handle);
               EvRequest (request_of handle)] ++ discovery_succeeded_lines data in
  discovery_steps handle w (past ++ [discovering handle]) =
  (result (discovery_result handle data) w (past ++ discovering handle :: head),
   head ++ emitted (discovery_result handle data) w (past ++ discovering handle :: head)).
Proof.
  intros Hnet head. unfold discovery_steps, console_log.
  erewrite bind_normal by (apply print_line; reflexivity).
  rewrite <- app_assoc. cbn [app].
  erewrite result_bind_normal, emitted_bind_normal by (apply axios_get_resolved, Hnet).
  do 3 (erewrite result_bind_normal, emitted_bind_normal by (apply print_line; reflexivity)).
  rewrite <- !app_assoc. reflexivity.
Qed.

(** X1. When the WebFinger request of a well-formed handle is rejected,
    [discoverActor] prints the failure (with the status and the body when
    the error carries a response) and throws the very error it caught; the
    request is the only one. *)
Theorem discovery_failure_is_rethrown (w : world) (past : list event) (handle : string) (e : error) :
  ~ malformed handle ->
  net w (past ++ before_request handle) (request_of handle) = Rejected e ->
  discoverActor handle w past =
  (Throw e,
   before_request handle ++ EvRequest (request_of handle) :: discovery_failed_lines handle e).
Proof.
  intros Hwell Hnet. apply not_malformed_accepted in Hwell.
  rewrite (discoverActor_accepted_run _ _ _ Hwell).
  unfold discovery_attempt, result, emitted.
  rewrite !(try_catch_throw _ _ _ _ _ _ (discovery_steps_rejected _ _ _ _ Hnet)).
  unfold result, emitted. rewrite !discovery_failed_run. reflexivity.
Qed.

Lemma discovery_failure_is_rethrown_witness :
  discoverActor "alice@example.org" offline [] =
  (Throw not_found,
   before_request "alice@example.org" ++
   EvRequest (request_of "alice@example.org") ::
   discovery_failed_lines "alice@example.org" not_found).
Proof.
  apply (discovery_failure_is_rethrown offline [] "alice@example.org" not_found).
  - intros H. apply turned_away_malformed in H. vm_compute in H. discriminate.
  - reflexivity.
Defined.




Lemma result_ret_inv {A} (a b : A) w past : result (ret a) w past = Normal b -> a = b.
Proof. unfold result, ret. simpl. now intros [= ->]. Qed.

Lemma find_first_activity_link_inv l x w past :
  result (find_first (fun link => t <- get link "type" ;;
                                  ret (strict_eq_str t "application/activity+json")) l) w past
  = Normal x ->
  x = VUndefined \/ (In x l /\ is_activity_link x = true /\ nullish x = false).
Proof.
  revert past. induction l as [| y l IH]; intros past H.
  - apply result_ret_inv in H. now left.
  - simpl in H. apply result_bind_inv in H. destruct H as (hit & later & Hcb & H).
    apply result_bind_inv in Hcb. destruct Hcb as (t & later' & Ht & Hcb).
    apply result_get_inv in Ht. destruct Ht as [Hn ->].
    apply result_ret_inv in Hcb. subst hit.
    destruct (strict_eq_str (member y "type") "application/activity+json") eqn:E.
    + apply result_ret_inv in H. subst x. right. repeat split; auto. now left.
    + destruct (IH _ H) as [-> | (Hin & Hl & Hx)]; [now left |].
      right. repeat split; auto. now right.
Qed.

Lemma extract_actor_url_inv data a w past :
  result (extract_actor_url data) w past = Normal a ->
  a = VUndefined \/
  exists links link,
    member data "links" = VArr links /\ In link links /\
    member link "type" = VStr "application/activity+json" /\
    a = member link "href".
Proof.
  unfold extract_actor_url. intros H.
  apply result_bind_inv in H. destruct H as (links & later & Hl & H).
  apply result_get_inv in Hl. destruct Hl as [_ ->].
  destruct (nullish (member data "links")) eqn:En.
  - apply result_ret_inv in H. now left.
  - apply result_bind_inv in H. destruct H as (link & later' & Hf & H).
    destruct (member data "links") as [| | | | | l |] eqn:El; try discriminate.
    simpl in Hf.
    destruct (find_first_activity_link_inv _ _ _ _ Hf) as [-> | (Hin & Ht & Hn)].
    + apply result_ret_inv in H. now left.
    + rewrite Hn in H. apply result_get_inv in H. destruct H as [_ ->].
      right. exists l, link. repeat split; auto. now apply activity_link_type.
Qed.

(** X2. Whenever [discoverActor] returns, the handle passed the test, the
    result carries the handle and the very document the network answered
    with, and the actor URL is [undefined] or the [href] of a link of that
    document whose type is [application/activity+json]. *)
Theorem discovery_returns_what_it_received
  (w : world) (past : list event) (h : string) (d : discovery) :
  result (discoverActor h) w past = Normal d ->
  ~ malformed h /\
  handle d = h /\
  net w (past ++ before_request h) (request_of h) = Resolved (webfingerData d) /\
  (actorUrl d = VUndefined \/
   exists links link,
     member (webfingerData d) "links" = VArr links /\ In link links /\
     member link "type" = VStr "application/activity+json" /\
     actorUrl d = member link "href").
Proof.
  intros H. destruct (turned_away h) eqn:E.
  - unfold result in H. rewrite (discoverActor_turned_away _ _ _ E) in H. discriminate.
  - unfold result in H. rewrite (discoverActor_accepted_run _ _ _ E) in H. simpl fst in H.
    unfold discovery_attempt in H. rewrite result_try in H.
    destruct (result (discovery_steps h) w (past ++ [discovering h])) as [d' | e] eqn:Hs.
    2:{ unfold result in H. rewrite discovery_failed_run in H. discriminate. }
    injection H as ->.
    split. { intros Hm. apply turned_away_malformed in Hm. congruence. }
    destruct (net w (past ++ before_request h) (request_of h)) as [data | e] eqn:Hnet.
    2:{ unfold result in Hs. rewrite (discovery_steps_rejected _ _ _ _ Hnet) in Hs.
        discriminate. }
    unfold result in Hs. rewrite (discovery_steps_resolved _ _ _ _ Hnet) in Hs.
    cbv zeta in Hs. simpl fst in Hs. unfold discovery_result in Hs.
    apply result_bind_inv in Hs. destruct Hs as (a & later & Ha & Hs).
    apply result_bind_inv in Hs. destruct Hs as (u & later' & _ & Hs).
    apply result_ret_inv in Hs. subst d. simpl.
    repeat split. now apply extract_actor_url_inv in Ha.
Qed.

Lemma discovery_returns_what_it_received_witness :
  let d := {| handle := "alice@example.org";
              webfingerData := alice_jrd;
              actorUrl := VStr "https://example.org/users/alice" |} in
  ~ malformed "alice@example.org" /\
  handle d = "alice@example.org" /\
  net (serving alice_site) ([] ++ before_request "alice@example.org")
      (request_of "alice@example.org") = Resolved (webfingerData d) /\
  (actorUrl d = VUndefined \/
   exists links link,
     member (webfingerData d) "links" = VArr links /\ In link links /\
     member link "type" = VStr "application/activity+json" /\
     actorUrl d = member link "href").
Proof.
  apply (discovery_returns_what_it_received (serving alice_site) [] "alice@example.org"
           {| handle := "alice@example.org";
              webfingerData := alice_jrd;
              actorUrl := VStr "https://example.org/users/alice" |}).
  reflexivity.
Defined.

(** ** The actor and its outbox *)

(** X4. With a URL that can be printed, [fetchActor] issues one request
    and hands over what the network answers: the document as it is when the
    request is resolved, after the success line; the error as it is when the
    request is rejected, after the failure lines. *)
Theorem fetchActor_hands_over_the_answer (w : world) (past : list event) (actorUrl : value) :
  convertible actorUrl = true ->
  fetchActor actorUrl w past =
  match net w (past ++ [fetching_actor actorUrl]) (activity_request actorUrl) with
  | Resolved data =>
      (Normal data,
       [fetching_actor actorUrl; EvRequest (activity_request actorUrl); actor_fetched])
  | Rejected e =>
      (Throw e,
       [fetching_actor actorUrl; EvRequest (activity_request actorUrl)] ++
       actor_fetch_failed_lines actorUrl e)
  end.
Proof.
  intros Hc. unfold fetchActor, console_log at 1.
  erewrite bind_normal by (apply print_line, convertible_line, Hc).
  unfold fetching_actor.
  destruct (net w (past ++ [EvConsole stdout blue
              [Lit "🎭 Fetching ActivityPub actor: "; Sub actorUrl]])
              (activity_request actorUrl)) as [data | e] eqn:Hnet.
  - assert (Hbody : forall h : error -> M value,
      try_catch (data <- axios_get (activity_request actorUrl) ;;
                 console_log green [Lit "✅ Successfully fetched actor data"] ;;
                 ret data) h w
        (past ++ [EvConsole stdout blue [Lit "🎭 Fetching ActivityPub actor: "; Sub actorUrl]])
      = (Normal data, [EvRequest (activity_request actorUrl); actor_fetched])).
    { intros h. apply try_catch_normal.
      erewrite bind_normal by (apply axios_get_resolved, Hnet).
      unfold console_log.
      erewrite result_bind_normal, emitted_bind_normal by (apply print_line; reflexivity).
      reflexivity. }
    unfold result, emitted. now rewrite !Hbody.
  - assert (Hbody : (data <- axios_get (activity_request actorUrl) ;;
                 console_log green [Lit "✅ Successfully fetched actor data"] ;;
                 ret data) w
        (past ++ [EvConsole stdout blue [Lit "🎭 Fetching ActivityPub actor: "; Sub actorUrl]])
      = (Throw e, [EvRequest (activity_request actorUrl)])).
    { apply bind_throw. apply axios_get_rejected, Hnet. }
    unfold result at 1, emitted at 1.
    rewrite !(try_catch_throw _ _ _ _ _ _ Hbody).
    unfold console_error.
    assert (Hl : forallb part_ok [Lit "❌ Failed to fetch actor from "; Sub actorUrl; Lit ":"] = true).
    { simpl. now rewrite Hc. }
    erewrite !result_bind_normal, !emitted_bind_normal
      by (apply print_line; first [exact Hl | reflexivity]).
    reflexivity.
Qed.

Lemma fetchActor_hands_over_the_answer_witness :
  fetchActor (VStr "https://example.org/users/alice") (serving alice_site) [] =
  match net (serving alice_site)
            ([] ++ [fetching_actor (VStr "https://example.org/users/alice")])
            (activity_request (VStr "https://example.org/users/alice")) with
  | Resolved data =>
      (Normal data,
       [fetching_actor (VStr "https://example.org/users/alice");
        EvRequest (activity_request (VStr "https://example.org/users/alice")); actor_fetched])
  | Rejected e =>
      (Throw e,
       [fetching_actor (VStr "https://example.org/users/alice");
        EvRequest (activity_request (VStr "https://example.org/users/alice"))] ++
       actor_fetch_failed_lines (VStr "https://example.org/users/alice") e)
  end.
Proof.
  apply (fetchActor_hands_over_the_answer (serving alice_site) []
           (VStr "https://example.org/users/alice")).
  reflexivity.
Defined.

Lemma unprintable_is_truthy v : convertible v = false -> truthy v = true.
Proof. destruct v; simpl; try discriminate; reflexivity. Qed.

Lemma unprintable_line label v w past s c :
  convertible v = false -> print s c [Lit label; Sub v] w past = (Throw cannot_convert, []).
Proof. intros H. unfold print. simpl. now rewrite H. Qed.

(** X5. [fetchActorOutbox] throws in one case only: an outbox URL that
    cannot be converted to a string throws from the template literal of its
    first line, outside the [try]; otherwise it returns [undefined].  Such a
    URL, in [fetchActor] as well, is never requested and nothing is
    printed. *)
Theorem unprintable_urls_are_never_requested
  (w : world) (past : list event) (target : value) (limit : option Z) :
  result (fetchActorOutbox target limit) w past =
    (if convertible target then Normal VUndefined else Throw cannot_convert) /\
  (convertible target = false ->
   fetchActorOutbox target limit w past = (Throw cannot_convert, []) /\
   fetchActor target w past = (Throw cannot_convert, [])).
Proof.
  split.
  - destruct (convertible target) eqn:Hc; [now apply fetchActorOutbox_returns |].
    unfold fetchActorOutbox. rewrite (unprintable_is_truthy _ Hc). cbn [negb]. cbv iota zeta.
    unfold console_log. eapply result_bind_throw. now apply unprintable_line.
  - intros Hc. split.
    + unfold fetchActorOutbox. rewrite (unprintable_is_truthy _ Hc). cbn [negb]. cbv iota zeta.
      unfold console_log. apply bind_throw. now apply unprintable_line.
    + unfold fetchActor, console_log. apply bind_throw. now apply unprintable_line.
Qed.

(** X8. An outbox without a [first] page is fetched and nothing more: one
    request, the line of the total, no activity shown (items the collection
    holds inline are not looked at), and [undefined] is returned. *)
Theorem outbox_without_first_page_shows_nothing
  (w : world) (past : list event) (outboxUrl outbox : value) (limit : option Z) :
  truthy outboxUrl = true -> convertible outboxUrl = true ->
  net w (past ++ [fetching_outbox outboxUrl]) (activity_request outboxUrl) = Resolved outbox ->
  nullish outbox = false ->
  convertible (or_else (member outbox "totalItems") (VStr "unknown")) = true ->
  truthy (member outbox "first") = false ->
  fetchActorOutbox outboxUrl limit w past =
  (Normal VUndefined,
   [fetching_outbox outboxUrl; EvRequest (activity_request outboxUrl); outbox_fetched outbox]).
Proof.
  intros Ht Hc Hnet Hn Hct Hf.
  unfold fetchActorOutbox. rewrite Ht. cbn [negb]. cbv iota zeta.
  unfold console_log at 1.
  erewrite bind_normal by (apply print_line, convertible_line, Hc).
  assert (Hbody : show_outbox outboxUrl (limit_of limit) w (past ++ [fetching_outbox outboxUrl]) =
                  (Normal VUndefined,
                   [EvRequest (activity_request outboxUrl); outbox_fetched outbox])).
  { unfold show_outbox.
    erewrite bind_normal by (apply axios_get_resolved, Hnet).
    erewrite result_bind_normal, emitted_bind_normal by (apply get_member, Hn).
    unfold console_log.
    erewrite result_bind_normal, emitted_bind_normal
      by (apply print_line, convertible_line, Hct).
    erewrite result_bind_normal, emitted_bind_normal by (apply get_member, Hn).
    rewrite Hf. reflexivity. }
  unfold result at 1, emitted at 1.
  now rewrite !(try_catch_normal _ _ _ _ _ _ Hbody).
Qed.

Lemma outbox_without_first_page_shows_nothing_witness :
  let outboxUrl := VStr "https://example.org/users/alice/outbox" in
  fetchActorOutbox outboxUrl None
    (serving [("https://example.org/users/alice/outbox", inline_outbox)]) [] =
  (Normal VUndefined,
   [fetching_outbox outboxUrl; EvRequest (activity_request outboxUrl);
    outbox_fetched inline_outbox]).
Proof.
  apply (outbox_without_first_page_shows_nothing
           (serving [("https://example.org/users/alice/outbox", inline_outbox)]) []
           (VStr "https://example.org/users/alice/outbox") inline_outbox None);
    reflexivity.
Defined.

Lemma slice0_negative {A} (l : list A) (limit : Z) :
  (limit < 0)%Z -> slice0 l limit = firstn (List.length l - Z.to_nat (- limit)) l.
Proof.
  intros H. unfold slice0.
  destruct (Z.ltb_spec limit 0) as [_ | Hge]; [| lia].
  f_equal. lia.
Qed.

(** X9. A negative limit is passed to [slice] as it is: the display goes
    through all the activities of the page but the last [-limit] ones. *)
Theorem negative_limit_drops_the_last_items
  (w : world) (past : list event) (outboxUrl outbox page : value)
  (items : list value) (limit : Z) :
  outbox_served w past outboxUrl outbox ->
  net w (past ++ before_first_page outboxUrl outbox)
        (activity_request (member outbox "first")) = Resolved page ->
  nullish page = false ->
  page_activities page = VArr items ->
  (limit < 0)%Z ->
  let shown := firstn (List.length items - Z.to_nat (- limit)) items in
  let head := before_first_page outboxUrl outbox ++
              [EvRequest (activity_request (member outbox "first"));
               showing limit (VArr items)] in
  fetchActorOutbox outboxUrl (Some limit) w past =
  (Normal VUndefined,
   head ++
   emitted (for_each shown show_activity) w (past ++ head) ++
   match result (for_each shown show_activity) w (past ++ head) with
   | Normal _ => []
   | Throw _ => [could_not_fetch]
   end).
Proof.
  intros Hs Hnet Hpage Hitems Hlimit shown head.
  rewrite (fetchActorOutbox_served _ _ _ _ _ Hs). simpl limit_of.
  unfold result at 1, emitted at 1.
  rewrite !(show_first_page_resolved _ limit _ _ _ _ Hnet Hpage Hitems).
  simpl fst. simpl snd.
  rewrite (slice0_negative items limit Hlimit). fold shown.
  unfold head. rewrite <- !app_assoc. reflexivity.
Qed.

Lemma negative_limit_drops_the_last_items_witness :
  let w := serving alice_site in
  let outboxUrl := VStr "https://example.org/users/alice/outbox" in
  let outbox := VObj [("type", VStr "OrderedCollection"); ("totalItems", VNum 10);
                      ("first", VStr "https://example.org/users/alice/outbox?page=true")] in
  let shown := firstn (List.length ten_notes - Z.to_nat (- (-3))) ten_notes in
  let head := before_first_page outboxUrl outbox ++
              [EvRequest (activity_request (member outbox "first"));
               showing (-3) (VArr ten_notes)] in
  fetchActorOutbox outboxUrl (Some (-3)%Z) w [] =
  (Normal VUndefined,
   head ++
   emitted (for_each shown show_activity) w ([] ++ head) ++
   match result (for_each shown show_activity) w ([] ++ head) with
   | Normal _ => []
   | Throw _ => [could_not_fetch]
   end).
Proof.
  apply (negative_limit_drops_the_last_items (serving alice_site) []
           (VStr "https://example.org/users/alice/outbox")
           (VObj [("type", VStr "OrderedCollection"); ("totalItems", VNum 10);
                  ("first", VStr "https://example.org/users/alice/outbox?page=true")])
           (VObj [("type", VStr "OrderedCollectionPage"); ("orderedItems", VArr ten_notes)])
           ten_notes (-3)).
  - repeat split.
  - reflexivity.
  - reflexivity.
  - reflexivity.
  - lia.
Defined.

Lemma for_each_from_stops i before x after (cb : value -> nat -> M unit) w past e es es' :
  for_each_from i before cb w past = (Normal tt, es) ->
  cb x (i + List.length before) w (past ++ es) = (Throw e, es') ->
  for_each_from i (before ++ x :: after) cb w past = (Throw e, es ++ es').
Proof.
  revert i past es. induction before as [| y before IH]; intros i past es Hb Hx.
  - simpl in *. injection Hb as <-. rewrite Nat.add_0_r, app_nil_r in Hx.
    now apply bind_throw.
  - simpl in Hb. simpl app. simpl for_each_from.
    destruct (cb y i w past) as [[[] | e'] es1] eqn:Hy.
    + rewrite (bind_normal _ _ _ _ _ _ Hy) in Hb.
      unfold result, emitted in Hb.
      destruct (for_each_from (S i) before cb w (past ++ es1)) as [[[] | e'] es2] eqn:Hrest;
        simpl in Hb; [| discriminate].
      injection Hb as <-.
      rewrite (bind_normal _ _ _ _ _ _ Hy).
      simpl List.length in Hx. rewrite Nat.add_succ_r, app_assoc in Hx.
      unfold result, emitted. rewrite (IH (S i) _ _ Hrest Hx). simpl.
      now rewrite app_assoc.
    + rewrite (bind_throw _ _ _ _ _ _ Hy) in Hb. discriminate.
Qed.

(** X10. The [forEach] of the display stops at the first activity whose
    display throws: the activities before it are displayed, the error is the
    error of that activity, and nothing of the activities after it is
    emitted. *)
Theorem display_stops_at_the_first_failure
  (w : world) (past : list event) (before after : list value) (activity : value)
  (e : error) (es es' : list event) :
  for_each before show_activity w past = (Normal tt, es) ->
  show_activity activity (List.length before) w (past ++ es) = (Throw e, es') ->
  for_each (before ++ activity :: after) show_activity w past = (Throw e, es ++ es').
Proof. intros Hb Hx. unfold for_each in *. now apply for_each_from_stops. Qed.

Lemma display_stops_at_the_first_failure_witness :
  exists es,
    for_each ([note 1] ++ VNull :: [note 2]) show_activity offline [] =
    (Throw (TypeError "Cannot read properties of null (reading 'type')"), es ++ []).
Proof.
  eexists.
  apply (display_stops_at_the_first_failure offline [] [note 1] [note 2] VNull);
    reflexivity.
Defined.

(** ** The display of an actor *)

(** X6. An actor with nothing but a [type] and an [id] is displayed without
    an error: every other property [analyzeActor] reads is optional, and the
    lines are the nine lines of the headings, the type, the id and the
    defaults ([Not specified], [undefined], [No bio]). *)
Theorem bare_actor_is_displayed (w : world) (past : list event) (actor : value) :
  nullish actor = false ->
  Forall (fun key => member actor key = VUndefined) optional_actor_keys ->
  convertible (member actor "type") = true ->
  convertible (member actor "id") = true ->
  analyzeActor actor w past =
  (Normal tt, bare_actor_lines (member actor "type") (member actor "id")).
Proof.
  intros Hn Hkeys Htype Hid.
  unfold optional_actor_keys in Hkeys.
  repeat match goal with
         | H : Forall _ (_ :: _) |- _ =>
             let E := fresh "E" in
             apply Forall_cons_iff in H; destruct H as [E H]
         end.
  clear Hkeys.
  unfold analyzeActor, show_when_set, get, console_log, print. rewrite Hn.
  rewrite E, E0, E1, E2, E3, E4, E5, E6, E7, E8, E9, E10, E11, E12.
  unfold bare_actor_lines.
  generalize dependent (member actor "type"). intros type Htype.
  generalize dependent (member actor "id"). intros id Hid.
  cbv beta iota zeta delta [bind ret forallb part_ok andb]. rewrite Htype. cbv beta iota zeta. rewrite Hid.
  reflexivity.
Qed.

Lemma bare_actor_is_displayed_witness :
  let actor := VObj [("type", VStr "Person"); ("id", VStr "https://example.org/users/alice")] in
  analyzeActor actor offline [] =
  (Normal tt, bare_actor_lines (member actor "type") (member actor "id")).
Proof.
  apply (bare_actor_is_displayed offline []
           (VObj [("type", VStr "Person"); ("id", VStr "https://example.org/users/alice")])).
  - reflexivity.
  - repeat constructor.
  - reflexivity.
  - reflexivity.
Defined.

Lemma replace_tags_inv what v w past text :
  result (replace_tags what v) w past = Normal text -> exists s, v = VStr s.
Proof. destruct v; try discriminate. eauto. Qed.

Lemma substring_to_inv what n v w past text :
  result (substring_to what n v) w past = Normal text -> exists s, v = VStr s.
Proof. destruct v; try discriminate. eauto. Qed.

Lemma result_print_inv s c label v w past u :
  result (print s c [Lit label; Sub v]) w past = Normal u -> convertible v = true.
Proof.
  unfold result, print. simpl. destruct (convertible v); [reflexivity | discriminate].
Qed.

(** X7. [analyzeActor] returns only for an actor it can display: the
    actor is not [null] or [undefined]; its [type], [id],
    [preferredUsername] and [url] can be converted to a string, as can each
    of [inbox], [outbox], [followers], [following] that is set; a [summary]
    that is set is a string; a [publicKey] that is set has a string
    [publicKeyPem]. *)
Theorem analyzeActor_returns_only_for_displayable_actors
  (w : world) (past : list event) (actor : value) :
  result (analyzeActor actor) w past = Normal tt ->
  nullish actor = false /\
  Forall (fun key => convertible (member actor key) = true)
         ["type"; "id"; "preferredUsername"; "url"] /\
  Forall (fun key => truthy (member actor key) = true -> convertible (member actor key) = true)
         ["inbox"; "outbox"; "followers"; "following"] /\
  (truthy (member actor "summary") = true -> exists text, member actor "summary" = VStr text) /\
  (truthy (member actor "publicKey") = true ->
   exists pem, member (member actor "publicKey") "publicKeyPem" = VStr pem).
Proof.
  intros H. unfold analyzeActor in H. peel_binds.
  repeat match goal with
         | G : result (get _ _) _ _ = Normal _ |- _ =>
             apply result_get_inv in G; destruct G as [? ->]
         end.
  split; [assumption |].
  split.
  { unfold console_log in *.
    repeat constructor;
      match goal with
      | G : result (print _ _ [Lit _; Sub (member actor ?k)]) _ _ = Normal _
        |- convertible (member actor ?k) = true => exact (result_print_inv _ _ _ _ _ _ _ G)
      end. }
  split.
  { repeat constructor;
      match goal with
      | G : result (show_when_set _ (member actor ?k)) _ _ = Normal ?u
        |- truthy (member actor ?k) = true -> _ =>
          destruct u; exact (show_when_set_inv _ _ _ _ G)
      end. }
  split.
  - intros Ht.
    match goal with
    | G : result (if truthy (member actor "summary") then _ else _) _ _ = Normal _ |- _ =>
        rewrite Ht in G; apply result_bind_inv in G; destruct G as (text & later & G & _);
        exact (replace_tags_inv _ _ _ _ _ G)
    end.
  - intros Ht.
    match goal with
    | G : result (if truthy (member actor "publicKey") then _ else _) _ _ = Normal _ |- _ =>
        rewrite Ht in G
    end.
    peel_binds.
    repeat match goal with
           | G : result (get _ _) _ _ = Normal _ |- _ =>
               apply result_get_inv in G; destruct G as [? ->]
           end.
    match goal with
    | G : result (substring_to _ _ _) _ _ = Normal _ |- _ =>
        exact (substring_to_inv _ _ _ _ _ _ G)
    end.
Qed.

Lemma analyzeActor_returns_only_for_displayable_actors_witness :
  let actor := VObj [("id", VStr "https://example.org/users/alice"); ("type", VStr "Person");
                     ("preferredUsername", VStr "alice");
                     ("outbox", VStr "https://example.org/users/alice/outbox")] in
  nullish actor = false /\
  Forall (fun key => convertible (member actor key) = true)
         ["type"; "id"; "preferredUsername"; "url"] /\
  Forall (fun key => truthy (member actor key) = true -> convertible (member actor key) = true)
         ["inbox"; "outbox"; "followers"; "following"] /\
  (truthy (member actor "summary") = true -> exists text, member actor "summary" = VStr text) /\
  (truthy (member actor "publicKey") = true ->
   exists pem, member (member actor "publicKey") "publicKeyPem" = VStr pem).
Proof.
  apply (analyzeActor_returns_only_for_displayable_actors offline []
           (VObj [("id", VStr "https://example.org/users/alice"); ("type", VStr "Person");
                  ("preferredUsername", VStr "alice");
                  ("outbox", VStr "https://example.org/users/alice/outbox")])).
  reflexivity.
Defined.

(** ** The requests of a complete analysis *)

(** ** Counting requests *)

Lemma at_most_quiet {A} (m : M A) n : emits on_console m -> at_most n m.
Proof. intros H w past. rewrite (quiet_requests _ _ _ H). simpl. lia. Qed.

Lemma at_most_bind {A B} n1 n2 (m : M A) (k : A -> M B) :
  at_most n1 m -> (forall a, at_most n2 (k a)) -> at_most (n1 + n2) (bind m k).
Proof.
  intros Hm Hk w past. rewrite emitted_bind, requests_app, length_app.
  specialize (Hm w past).
  destruct (result m w past) as [a | e]; [specialize (Hk a w (past ++ emitted m w past)) |];
    simpl; lia.
Qed.

Lemma at_most_try {A} n1 n2 (m : M A) (h : error -> M A) :
  at_most n1 m -> (forall e, at_most n2 (h e)) -> at_most (n1 + n2) (try_catch m h).
Proof.
  intros Hm Hh w past. rewrite emitted_try, requests_app, length_app.
  specialize (Hm w past).
  destruct (result m w past) as [a | e]; [| specialize (Hh e w (past ++ emitted m w past))];
    simpl; lia.
Qed.

Lemma at_most_axios_get r : at_most 1 (axios_get r).
Proof. intros w past. rewrite emitted_axios_get. simpl. lia. Qed.

Lemma at_most_for_of {A} n (xs : list A) (body : A -> M unit) :
  (forall x, at_most n (body x)) -> at_most (n * List.length xs) (for_of xs body).
Proof.
  intros Hb. induction xs as [| x xs IH]; simpl.
  - intros w past. simpl. lia.
  - replace (n * S (List.length xs)) with (n + n * List.length xs) by lia.
    apply at_most_bind; [apply Hb | intros _; exact IH].
Qed.

Ltac quiet :=
  repeat emits_step;
  first [ exact I
        | solve [auto using emits_get, emits_ret, emits_throw, emits_print, emits_gt_zero,
                            emits_replace_tags, emits_substring_to,
                            extract_actor_url_quiet, discovery_failed_quiet,
                            analyzeActor_quiet] ].

Lemma print_quiet s c line : emits on_console (print s c line).
Proof. apply emits_print. intros; exact I. Qed.

Lemma show_activities_quiet activities limit :
  emits on_console (show_activities activities limit).
Proof. unfold show_activities, show_activity. quiet. Qed.

Lemma discoverActor_at_most_one handle : at_most 1 (discoverActor handle).
Proof.
  intros w past. destruct (turned_away handle) eqn:H.
  - unfold emitted. rewrite (discoverActor_turned_away _ w past H). simpl. lia.
  - rewrite (discoverActor_accepted _ w past H). simpl. lia.
Qed.

Lemma fetchActor_at_most_one actorUrl : at_most 1 (fetchActor actorUrl).
Proof.
  unfold fetchActor.
  apply (at_most_bind 0 1); [apply at_most_quiet, print_quiet | intros _].
  apply (at_most_try 1 0).
  - apply (at_most_bind 1 0); [apply at_most_axios_get | intros data].
    apply at_most_quiet. quiet.
  - intros e. apply at_most_quiet. quiet.
Qed.

Lemma show_first_page_at_most_one first limit : at_most 1 (show_first_page first limit).
Proof.
  unfold show_first_page.
  apply (at_most_bind 1 0); [apply at_most_axios_get | intros page].
  apply at_most_quiet.
  apply emits_bind; [quiet | intros orderedItems].
  apply emits_bind; [quiet | intros activities].
  apply emits_bind; [quiet | intros _].
  apply show_activities_quiet.
Qed.

Lemma show_outbox_at_most_two outboxUrl limit : at_most 2 (show_outbox outboxUrl limit).
Proof.
  unfold show_outbox.
  apply (at_most_bind 1 1); [apply at_most_axios_get | intros outbox].
  apply (at_most_bind 0 1); [apply at_most_quiet; quiet | intros totalItems].
  apply (at_most_bind 0 1); [apply at_most_quiet; quiet | intros _].
  apply (at_most_bind 0 1); [apply at_most_quiet; quiet | intros first].
  destruct (truthy first); [| apply at_most_quiet; quiet].
  apply (at_most_bind 0 1); [apply at_most_quiet; quiet | intros _].
  apply (at_most_bind 1 0); [| intros _; apply at_most_quiet; quiet].
  apply (at_most_try 1 0); [apply show_first_page_at_most_one |].
  intros e. apply at_most_quiet. quiet.
Qed.

Lemma fetchActorOutbox_at_most_two outboxUrl limit :
  at_most 2 (fetchActorOutbox outboxUrl limit).
Proof.
  unfold fetchActorOutbox. cbv zeta.
  destruct (negb (truthy outboxUrl)); [apply at_most_quiet; quiet |].
  apply (at_most_bind 0 2); [apply at_most_quiet; quiet | intros _].
  apply (at_most_try 2 0); [apply show_outbox_at_most_two |].
  intros e. apply at_most_quiet. quiet.
Qed.

(** What follows the discovery in [analyzeActorComplete]. *)
Lemma after_discovery_at_most_three (d : discovery) :
  at_most 3
    (if negb (truthy (actorUrl d)) then
       console_log red [Lit "❌ No ActivityPub actor URL found in WebFinger response"] ;;
       ret VUndefined
     else
       actor <- fetchActor (actorUrl d) ;;
       analyzeActor actor ;;
       outbox <- get actor "outbox" ;;
       _ <- fetchActorOutbox outbox (Some 3%Z) ;;
       ret VUndefined).
Proof.
  destruct (negb (truthy (actorUrl d))); [apply at_most_quiet; quiet |].
  apply (at_most_bind 1 2); [apply fetchActor_at_most_one | intros actor].
  apply (at_most_bind 0 2); [apply at_most_quiet, analyzeActor_quiet | intros _].
  apply (at_most_bind 0 2); [apply at_most_quiet; quiet | intros outbox].
  apply (at_most_bind 2 0); [apply fetchActorOutbox_at_most_two | intros _].
  apply at_most_quiet. quiet.
Qed.

Lemma analyzeActorComplete_at_most_four handle : at_most 4 (analyzeActorComplete handle).
Proof.
  unfold analyzeActorComplete.
  apply (at_most_try 4 0); [| intros e; apply at_most_quiet; quiet].
  apply (at_most_bind 0 4); [apply at_most_quiet; quiet | intros _].
  apply (at_most_bind 0 4); [apply at_most_quiet; quiet | intros _].
  apply (at_most_bind 1 3); [apply discoverActor_at_most_one | intros d].
  apply after_discovery_at_most_three.
Qed.

(** X11. The requests are bounded, whatever the network answers: at most
    one by [discoverActor], one by [fetchActor], none by [analyzeActor], two
    by [fetchActorOutbox] (the outbox and its first page: no further page is
    followed), four by [analyzeActorComplete], and four for each account by
    the loop of [runActorTests]. *)
Theorem requests_are_bounded :
  (forall handle, at_most 1 (discoverActor handle)) /\
  (forall actorUrl, at_most 1 (fetchActor actorUrl)) /\
  (forall actor, at_most 0 (analyzeActor actor)) /\
  (forall outboxUrl limit, at_most 2 (fetchActorOutbox outboxUrl limit)) /\
  (forall handle, at_most 4 (analyzeActorComplete handle)) /\
  (forall accounts, at_most (4 * List.length accounts) (runActorTests_over accounts)).
Proof.
  repeat split.
  - apply discoverActor_at_most_one.
  - apply fetchActor_at_most_one.
  - intros actor. apply at_most_quiet, analyzeActor_quiet.
  - apply fetchActorOutbox_at_most_two.
  - apply analyzeActorComplete_at_most_four.
  - intros accounts. unfold runActorTests_over.
    apply (at_most_bind 0 (4 * List.length accounts)); [apply at_most_quiet; quiet | intros _].
    apply at_most_for_of. intros account. unfold actor_test.
    apply (at_most_bind 4 0); [apply analyzeActorComplete_at_most_four | intros _].
    apply at_most_quiet. quiet.
Qed.

(** ** The order of the requests *)

Lemma requests_of_activity_events es :
  Forall console_or_activity_request es -> Forall is_activity_request (requests es).
Proof.
  induction 1 as [| [r | s c l] es Hx _ IH]; simpl; auto.
Qed.

Lemma activity_request_is_one target :
  console_or_activity_request (EvRequest (activity_request target)).
Proof. now exists target. Qed.

Ltac activity_requests :=
  repeat emits_step;
  first [ exact I
        | apply emits_axios_get; apply activity_request_is_one
        | solve [auto using emits_get, emits_ret, emits_throw, emits_print, emits_gt_zero,
                            emits_replace_tags, emits_substring_to] ].

Lemma after_discovery_activity_requests (d : discovery) :
  emits console_or_activity_request
    (if negb (truthy (actorUrl d)) then
       console_log red [Lit "❌ No ActivityPub actor URL found in WebFinger response"] ;;
       ret VUndefined
     else
       actor <- fetchActor (actorUrl d) ;;
       analyzeActor actor ;;
       outbox <- get actor "outbox" ;;
       _ <- fetchActorOutbox outbox (Some 3%Z) ;;
       ret VUndefined).
Proof.
  unfold fetchActor, analyzeActor, show_when_set, show_field, fetchActorOutbox, show_outbox,
    show_first_page, show_activities, show_activity.
  activity_requests.
Qed.

Lemma requests_try_quiet {A} (m : M A) (h : error -> M A) w past :
  (forall e, emits on_console (h e)) ->
  requests (emitted (try_catch m h) w past) = requests (emitted m w past).
Proof.
  intros Hh. rewrite emitted_try, requests_app.
  destruct (result m w past) as [a | e]; simpl; [now rewrite app_nil_r |].
  now rewrite (quiet_requests _ _ _ (Hh e)), app_nil_r.
Qed.

Lemma requests_after_print {A} s c line (k : unit -> M A) w past :
  exists later,
    requests (emitted (bind (print s c line) k) w past) =
    match result (print s c line) w past with
    | Normal _ => requests (emitted (k tt) w later)
    | Throw _ => []
    end.
Proof.
  exists (past ++ emitted (print s c line) w past).
  rewrite emitted_bind, requests_app, (quiet_requests _ _ _ (print_quiet s c line)).
  simpl. now destruct (result (print s c line) w past) as [[] | e].
Qed.

(** X12. [analyzeActorComplete] issues no request for a malformed handle;
    for any other handle its first request is the WebFinger request of the
    handle, and every later request, of which there are at most three, is a
    request of the actor script ([Accept: application/activity+json,
    application/ld+json]). *)
Theorem webfinger_request_comes_first (w : world) (past : list event) (handle : string) :
  (malformed handle -> requests (emitted (analyzeActorComplete handle) w past) = []) /\
  (~ malformed handle ->
   exists rest,
     requests (emitted (analyzeActorComplete handle) w past) = request_of handle :: rest /\
     Forall is_activity_request rest /\ List.length rest <= 3).
Proof.
  assert (Hshape : exists later,
    requests (emitted (analyzeActorComplete handle) w past) =
    requests (emitted (discoverActor handle) w later) ++
    match result (discoverActor handle) w later with
    | Normal d =>
        requests (emitted
          (if negb (truthy (actorUrl d)) then
             console_log red [Lit "❌ No ActivityPub actor URL found in WebFinger response"] ;;
             ret VUndefined
           else
             actor <- fetchActor (actorUrl d) ;;
             analyzeActor actor ;;
             outbox <- get actor "outbox" ;;
             _ <- fetchActorOutbox outbox (Some 3%Z) ;;
             ret VUndefined) w (later ++ emitted (discoverActor handle) w later))
    | Throw _ => []
    end).
  { unfold analyzeActorComplete.
    rewrite requests_try_quiet by (intros e; quiet).
    unfold console_log.
    destruct (requests_after_print stdout magenta
                [Lit "🚀 Complete Actor Analysis for: "; Sub (VStr handle)]
                (fun _ => print stdout blue [Lit (repeat_string "=" 60)] ;;
                   discovery <- discoverActor handle ;;
                   if negb (truthy (actorUrl discovery)) then
                     print stdout red [Lit "❌ No ActivityPub actor URL found in WebFinger response"] ;;
                     ret VUndefined
                   else
                     actor <- fetchActor (actorUrl discovery) ;;
                     analyzeActor actor ;;
                     outbox <- get actor "outbox" ;;
                     _ <- fetchActorOutbox outbox (Some 3%Z) ;;
                     ret VUndefined) w past) as [l1 ->].
    rewrite result_print by reflexivity.
    destruct (requests_after_print stdout blue [Lit (repeat_string "=" 60)]
                (fun _ => 
                   discovery <- discoverActor handle ;;
                   if negb (truthy (actorUrl discovery)) then
                     print stdout red [Lit "❌ No ActivityPub actor URL found in WebFinger response"] ;;
                     ret VUndefined
                   else
                     actor <- fetchActor (actorUrl discovery) ;;
                     analyzeActor actor ;;
                     outbox <- get actor "outbox" ;;
                     _ <- fetchActorOutbox outbox (Some 3%Z) ;;
                     ret VUndefined) w l1) as [l2 ->].
    rewrite result_print by reflexivity.
    exists l2. rewrite emitted_bind, requests_app.
    now destruct (result (discoverActor handle) w l2). }
  destruct Hshape as [later Hshape]. split.
  - intros Hm. apply turned_away_malformed in Hm.
    rewrite Hshape. unfold result, emitted.
    now rewrite (discoverActor_turned_away _ w later Hm).
  - intros Hm.
    assert (Ha : turned_away handle = false).
    { destruct (turned_away handle) eqn:E; [| reflexivity].
      apply turned_away_malformed in E. contradiction. }
    rewrite Hshape, (discoverActor_accepted _ w later Ha).
    fold (request_of handle). simpl app. eexists. split; [reflexivity |].
    destruct (result (discoverActor handle) w later) as [d | e].
    + split.
      * apply requests_of_activity_events, after_discovery_activity_requests.
      * apply after_discovery_at_most_three.
    + split; [constructor | simpl; lia].
Qed.

(** ** The complete analysis and the loops *)

(** X13. When the discovery returns without an actor URL,
    [analyzeActorComplete] prints that none was found and returns: the
    actor is not fetched, and the failure line of the [catch] is not
    printed. *)
Theorem analysis_stops_without_an_actor_url
  (w : world) (past : list event) (handle : string) (d : discovery) (es : list event) :
  discoverActor handle w (past ++ analysis_start handle) = (Normal d, es) ->
  truthy (actorUrl d) = false ->
  analyzeActorComplete handle w past =
  (Normal VUndefined, analysis_start handle ++ es ++ [no_actor_url]).
Proof.
  intros Hd Ht. unfold analyzeActorComplete. apply try_catch_normal.
  unfold console_log.
  erewrite bind_normal by (apply print_line; reflexivity).
  erewrite result_bind_normal, emitted_bind_normal by (apply print_line; reflexivity).
  rewrite <- !app_assoc. cbn [app]. fold (analysis_start handle) in *.
  change (past ++ [EvConsole stdout magenta
                     [Lit "🚀 Complete Actor Analysis for: "; Sub (VStr handle)];
                   EvConsole stdout blue [Lit (repeat_string "=" 60)]])
    with (past ++ analysis_start handle).
  erewrite result_bind_normal, emitted_bind_normal by exact Hd.
  rewrite Ht. cbn [negb]. cbv iota.
  erewrite result_bind_normal, emitted_bind_normal by (apply print_line; reflexivity).
  reflexivity.
Qed.

Lemma analysis_stops_without_an_actor_url_witness :
  exists es,
    analyzeActorComplete "alice@example.org"
      (serving [(alice_webfinger_url, alice_ld_jrd)]) [] =
    (Normal VUndefined, analysis_start "alice@example.org" ++ es ++ [no_actor_url]).
Proof.
  eexists.
  apply (analysis_stops_without_an_actor_url
           (serving [(alice_webfinger_url, alice_ld_jrd)]) [] "alice@example.org"
           {| handle := "alice@example.org";
              webfingerData := alice_ld_jrd;
              actorUrl := VUndefined |});
    reflexivity.
Defined.

Lemma webfinger_test_requests account w past :
  requests (emitted (webfinger_test account) w past) =
  if turned_away account then [] else [request_of account].
Proof.
  rewrite webfinger_test_run. simpl. rewrite requests_app.
  replace (requests (match result (discoverActor account) w (past ++ [test_separator]) with
                     | Normal _ => [EvConsole stdout plain [Lit nl]]
                     | Throw _ => [skipping account]
                     end)) with (@nil request)
    by now destruct (result (discoverActor account) w (past ++ [test_separator])).
  rewrite app_nil_r.
  destruct (turned_away account) eqn:H.
  - unfold emitted. now rewrite (discoverActor_turned_away _ _ _ H).
  - now rewrite (discoverActor_accepted _ _ _ H).
Qed.

Lemma webfinger_loop_requests accounts w past :
  requests (emitted (for_of accounts webfinger_test) w past) =
  map request_of (filter (fun account => negb (turned_away account)) accounts).
Proof.
  revert past. induction accounts as [| account accounts IH]; intros past; [reflexivity |].
  rewrite emitted_for_of_cons by apply webfinger_test_settles.
  rewrite requests_app, IH, webfinger_test_requests. simpl.
  now destruct (turned_away account).
Qed.

(** X14. The loop of [runWebFingerTests] issues one WebFinger request for
    each handle that passes the test of [discoverActor], in the order of the
    list and whatever the network answers; a handle that is turned away
    costs no request and does not stop the loop. *)
Theorem one_webfinger_request_per_accepted_account
  (w : world) (past : list event) (accounts : list string) :
  requests (emitted (runWebFingerTests_over accounts) w past) =
  map request_of (filter (fun account => negb (turned_away account)) accounts).
Proof.
  unfold runWebFingerTests_over, console_log.
  erewrite emitted_bind_normal by (apply print_line; reflexivity).
  simpl app. cbn [requests]. 
  rewrite emitted_bind, requests_app, webfinger_loop_requests.
  match goal with
  | |- context [result (for_of accounts webfinger_test) w ?p] =>
      destruct (settles_for_of accounts webfinger_test webfinger_test_settles w p) as [[] ->]
  end.
  rewrite (quiet_requests _ w _); [apply app_nil_r |].
  apply emits_bind; [apply print_quiet | intros _; apply print_quiet].
Qed.

(** ** The conversion of a status to a note *)

Ltac peel_gets :=
  repeat match goal with
         | G : result (get _ _) _ _ = Normal _ |- _ =>
             apply result_get_inv in G; destruct G as [? ->]
         end.

(** The steps of [convertToActivityPubNote] that returned. *)
Lemma convertToActivityPubNote_inv post w past note :
  result (convertToActivityPubNote post) w past = Normal note ->
  nullish post = false /\ nullish (member post "account") = false /\
  exists attachment later,
    result (map_array "post.media_attachments" (member post "media_attachments") document_of)
           w later = Normal attachment /\
    note =
    VObj [("@context", VStr "https://www.w3.org/ns/activitystreams");
          ("type", VStr "Note");
          ("id", member post "uri");
          ("published", member post "created_at");
          ("attributedTo", member (member post "account") "url");
          ("content", member post "content");
          ("to", VArr (if strict_eq_str (member post "visibility") "public"
                       then [public_address] else []));
          ("cc", VArr (if strict_eq_str (member post "visibility") "unlisted"
                       then [public_address] else []));
          ("url", member post "url");
          ("replies", collection (member post "replies_count"));
          ("likes", collection (member post "favourites_count"));
          ("shares", collection (member post "reblogs_count"));
          ("attachment", attachment)].
Proof.
  intros H. unfold convertToActivityPubNote in H. peel_binds. peel_gets.
  apply result_ret_inv in H. subst note.
  repeat split; try assumption. eauto.
Qed.

(** X15. The note [convertToActivityPubNote] returns is addressed by the
    visibility of the status: [to] holds the public address for [public]
    and nothing otherwise, [cc] holds it for [unlisted] and nothing
    otherwise; the public address is never in both. *)
Theorem note_is_addressed_by_visibility
  (w : world) (past : list event) (post note : value) :
  result (convertToActivityPubNote post) w past = Normal note ->
  member note "to" = VArr (if strict_eq_str (member post "visibility") "public"
                           then [public_address] else []) /\
  member note "cc" = VArr (if strict_eq_str (member post "visibility") "unlisted"
                           then [public_address] else []) /\
  (member note "to" = VArr [] \/ member note "cc" = VArr []).
Proof.
  intros H. apply convertToActivityPubNote_inv in H.
  destruct H as (_ & _ & attachment & later & _ & ->).
  split; [reflexivity |]. split; [reflexivity |].
  destruct (member post "visibility") as [| | b | n | s | l | ms];
    try (left; reflexivity).
  simpl strict_eq_str.
  destruct (String.eqb s "public") eqn:E; [| left; reflexivity].
  apply String.eqb_eq in E. subst s. right. reflexivity.
Qed.

Lemma note_is_addressed_by_visibility_witness :
  exists note,
    member note "to" = VArr (if strict_eq_str (member (a_status "public" []) "visibility") "public"
                             then [public_address] else []) /\
    member note "cc" = VArr (if strict_eq_str (member (a_status "public" []) "visibility") "unlisted"
                             then [public_address] else []) /\
    (member note "to" = VArr [] \/ member note "cc" = VArr []).
Proof.
  eexists.
  apply (note_is_addressed_by_visibility offline [] (a_status "public" [])).
  reflexivity.
Defined.

Lemma document_of_inv media w past doc :
  result (document_of media) w past = Normal doc -> documents media doc.
Proof.
  intros H. unfold document_of in H. peel_binds. peel_gets.
  apply result_ret_inv in H. now split.
Qed.

Lemma map_each_document_inv medias w past docs :
  result (map_each document_of medias) w past = Normal docs ->
  Forall2 documents medias docs.
Proof.
  revert past docs. induction medias as [| media medias IH]; intros past docs H.
  - apply result_ret_inv in H. subst docs. constructor.
  - simpl in H. peel_binds. apply result_ret_inv in H. subst docs.
    constructor; [eapply document_of_inv | eapply IH]; eassumption.
Qed.

Lemma map_array_inv what v w past attachment :
  result (map_array what v document_of) w past = Normal attachment ->
  exists medias docs,
    v = VArr medias /\ attachment = VArr docs /\ Forall2 documents medias docs.
Proof.
  intros H. destruct v; try discriminate. simpl in H. peel_binds.
  apply result_ret_inv in H. subst attachment.
  eexists _, _. repeat split. eapply map_each_document_inv. eassumption.
Qed.

(** X16. The attachments of the note are the media of the status, one
    document for each and in their order: type [Document], the [url] of the
    media, and the media type [image/*] for an image, [unknown] for anything
    else. *)
Theorem attachments_become_documents
  (w : world) (past : list event) (post note : value) :
  result (convertToActivityPubNote post) w past = Normal note ->
  exists medias docs,
    member post "media_attachments" = VArr medias /\
    member note "attachment" = VArr docs /\
    Forall2 documents medias docs.
Proof.
  intros H. apply convertToActivityPubNote_inv in H.
  destruct H as (_ & _ & attachment & later & Hmap & ->).
  apply map_array_inv in Hmap. destruct Hmap as (medias & docs & Hm & -> & Hd).
  now exists medias, docs.
Qed.

Lemma attachments_become_documents_witness :
  let post := a_status "unlisted"
                [VObj [("type", VStr "image"); ("url", VStr "https://example.org/1.png")];
                 VObj [("type", VStr "video"); ("url", VStr "https://example.org/2.mp4")]] in
  exists note medias docs,
    member post "media_attachments" = VArr medias /\
    member note "attachment" = VArr docs /\
    Forall2 documents medias docs.
Proof.
  eexists.
  apply (attachments_become_documents offline []
           (a_status "unlisted"
              [VObj [("type", VStr "image"); ("url", VStr "https://example.org/1.png")];
               VObj [("type", VStr "video"); ("url", VStr "https://example.org/2.mp4")]])).
  reflexivity.
Defined.

Lemma document_of_run media w past :
  nullish media = false -> exists doc, document_of media w past = (Normal doc, []).
Proof.
  intros H. unfold document_of.
  erewrite bind_normal by (apply get_member, H).
  erewrite result_bind_normal, emitted_bind_normal by (apply get_member, H).
  eexists. reflexivity.
Qed.

Lemma map_each_document_run medias w past :
  Forall (fun media => nullish media = false) medias ->
  exists docs, map_each document_of medias w past = (Normal docs, []).
Proof.
  intros H. revert past. induction H as [| media medias Hm _ IH]; intros past.
  - now exists [].
  - simpl. destruct (document_of_run media w past Hm) as [doc Hdoc].
    erewrite bind_normal by exact Hdoc.
    destruct (IH (past ++ [])) as [docs Hdocs].
    erewrite result_bind_normal, emitted_bind_normal by exact Hdocs.
    eexists. reflexivity.
Qed.

Lemma map_each_document_silent medias : emits silent (map_each document_of medias).
Proof.
  induction medias as [| media medias IH]; simpl; [apply emits_ret |].
  unfold document_of.
  repeat first [ apply emits_bind; [| intro] | apply emits_get | apply emits_ret | exact IH ].
Qed.

Lemma convertToActivityPubNote_silent post :
  emits silent (convertToActivityPubNote post).
Proof.
  unfold convertToActivityPubNote.
  repeat first [ apply emits_bind; [| intro] | apply emits_get | apply emits_ret ].
  unfold map_array.
  match goal with |- emits _ (match ?v with _ => _ end) => destruct v end;
    try apply emits_throw.
  apply emits_bind; [apply map_each_document_silent | intro; apply emits_ret].
Qed.

(** X17. [convertToActivityPubNote] returns exactly for a status that is
    not nullish, has an [account] that is not nullish, and has an array of
    [media_attachments] none of which is nullish; in every other case it
    throws.  It never prints and never issues a request. *)
Theorem conversion_returns_exactly_for_complete_statuses
  (w : world) (past : list event) (post : value) :
  ((exists note, result (convertToActivityPubNote post) w past = Normal note) <->
   nullish post = false /\ nullish (member post "account") = false /\
   exists medias, member post "media_attachments" = VArr medias /\
                  Forall (fun media => nullish media = false) medias) /\
  emitted (convertToActivityPubNote post) w past = [].
Proof.
  split.
  - split.
    + intros [note H]. apply convertToActivityPubNote_inv in H.
      destruct H as (Hp & Ha & attachment & later & Hmap & _).
      apply map_array_inv in Hmap. destruct Hmap as (medias & docs & Hm & _ & Hd).
      repeat split; try assumption. exists medias. split; [assumption |].
      clear Hm. induction Hd as [| media doc medias docs [Hn _] _ IH]; constructor; assumption.
    + intros (Hp & Ha & medias & Hm & Hall).
      unfold convertToActivityPubNote.
      do 3 (erewrite result_bind_normal by (apply get_member, Hp)).
      erewrite result_bind_normal by (apply get_member, Ha).
      do 7 (erewrite result_bind_normal by (apply get_member, Hp)).
      rewrite Hm. unfold map_array.
      match goal with
      | |- context [result _ w ?p] =>
          destruct (map_each_document_run medias w p Hall) as [docs Hdocs]
      end.
      erewrite result_bind_normal.
      2:{ erewrite bind_normal by exact Hdocs. reflexivity. }
      eexists. reflexivity.
  - pose proof (convertToActivityPubNote_silent post w past) as H.
    destruct (emitted (convertToActivityPubNote post) w past) as [| ev es]; [reflexivity |].
    inversion H as [| ? ? Hev _]. destruct Hev.
Qed.
